(** * Gym Face Entry System: a shallow embedding of [GYM/gym.py]

    The development follows the layout of the script: Python values and
    string helpers, the face-verification helper, the ID generator, the
    image helper, and then the menu branches (register, update, delete,
    attendance entry and exit) as functions over an explicit store.

    What stands outside the script is a parameter or a stated boundary:
    - [DeepFace.verify], the success of a file write and the mail helper
      are section variables, so every property holds for all of them;
    - the three CSV files are the lists of their rows as the loaders
      return them; a cell a branch writes enters the table as the next
      load reads it (pandas reads the spellings of its default
      [na_values], such as "NA", as an absent cell);
    - the files on disk are a finite map from path to content, paths are
      joined as on POSIX, and removing a file always succeeds;
    - a character is a code point below 256; integers are unbounded. *)

From Stdlib Require Import ZArith QArith String Ascii List Bool Lia.
From Stdlib Require Import DecimalString DecimalZ DecimalPos DecimalN.
From stdpp Require Import base option list strings gmap.

Local Open Scope string_scope.

(** ** Python floats, as far as the script compares them

    The script only compares distances ([<=], [<]).  A float is modelled by
    its exact rational value, or one of the three special values.  Every
    binary64 value [d] satisfies [d <= 0.6] (against the double nearest to
    0.6) exactly when its rational value is at most 6/10, because no double
    lies strictly between that constant and 6/10. *)
Module PyFloat.

Inductive t : Type :=
| Fin (q : Q)
| PInf
| NInf
| NaN.

(** [a <= b] *)
Definition le (a b : t) : bool :=
  match a, b with
  | NaN, _ | _, NaN => false
  | NInf, _ => true
  | _, PInf => true
  | Fin x, Fin y => Qle_bool x y
  | _, _ => false
  end.

(** [a < b] *)
Definition lt (a b : t) : bool :=
  match a, b with
  | NaN, _ | _, NaN => false
  | PInf, _ => false
  | _, NInf => false
  | NInf, _ => true
  | _, PInf => true
  | Fin x, Fin y => negb (Qle_bool y x)
  end.

End PyFloat.

(** [DISTANCE_THRESHOLD = 0.6] *)
Definition DISTANCE_THRESHOLD : PyFloat.t := PyFloat.Fin (6 # 10).

(** [best_dist = 1e9], the initial value of the scan *)
Definition INITIAL_BEST_DIST : PyFloat.t := PyFloat.Fin (1000000000 # 1).

(** ** Values returned by the external verification service

    [DeepFace.verify] is an external collaborator.  The script only applies
    [bool(...)] and [float(...)] to the values of the returned dictionary,
    so a value is modelled by these two observations; [py_float] is [None]
    when [float(v)] raises. *)
Record pyobj : Type := PyObj {
  py_bool : bool;
  py_float : option PyFloat.t
}.

(** Outcome of a call to the service.  [Raised] also stands for a result
    that cannot be inspected: the same handler catches both. *)
Inductive verify_result : Type :=
| Returned (res : gmap string pyobj)
| Raised (e : string).

(** Third component of the triple returned by [try_verify_faces]: the
    service's dictionary, or [{"error": str(e)}]. *)
Inductive details : Type :=
| ServiceResult (res : gmap string pyobj)
| ErrorDict (e : string).

(** The files on disk: path to content. *)
Abbreviation filesystem := (gmap string string).

Definition os_path_exists (fs : filesystem) (p : string) : bool :=
  bool_decide (is_Some (fs !! p)).

(** The loop [for k in ("distance","cosine","euclidean")] with its inner
    [try: distance = float(res[k]); break / except: continue]. *)
Fixpoint first_distance (keys : list string) (res : gmap string pyobj)
  : option PyFloat.t :=
  match keys with
  | [] => None
  | k :: ks =>
      match res !! k with
      | Some v =>
          match py_float v with
          | Some d => Some d
          | None => first_distance ks res
          end
      | None => first_distance ks res
      end
  end.

Definition distance_keys : list string := ["distance"; "cosine"; "euclidean"].

Section Matcher.

(** The external service, a function of the files and the two paths. *)
Variable DeepFace_verify : filesystem -> string -> string -> verify_result.

(** [try_verify_faces(img1_path, img2_path)] *)
Definition try_verify_faces (fs : filesystem) (img1_path img2_path : string)
  : bool * option PyFloat.t * details :=
  match DeepFace_verify fs img1_path img2_path with
  | Returned res =>
      let verified :=
        match res !! "verified" with
        | Some v => py_bool v
        | None => false
        end in
      let distance := first_distance distance_keys res in
      let match_ :=
        match distance with
        | Some d => PyFloat.le d DISTANCE_THRESHOLD
        | None => verified
        end in
      (match_, distance, ServiceResult res)
  | Raised e => (false, None, ErrorDict e)
  end.

End Matcher.

(** ** Python strings

    A character is a code point below 256 (Rocq's [ascii]); the predicates
    below are Python's on that range. *)
Module PyStr.

Definition code (c : ascii) : N := N_of_ascii c.

Definition between (lo hi : N) (c : ascii) : bool :=
  (lo <=? code c)%N && (code c <=? hi)%N.

(** [c.isspace()], the characters removed by [str.strip()] *)
Definition isspace (c : ascii) : bool :=
  between 9 13 c || between 28 32 c || (code c =? 133)%N || (code c =? 160)%N.

(** the blanks [int(s)] skips at both ends of [s] *)
Definition int_isspace (c : ascii) : bool :=
  between 9 13 c || (code c =? 32)%N || (code c =? 133)%N || (code c =? 160)%N.

(** [c.isalnum()] *)
Definition isalnum (c : ascii) : bool :=
  between 48 57 c || between 65 90 c || between 97 122 c
  || (code c =? 170)%N || between 178 179 c || (code c =? 181)%N
  || between 185 186 c || between 188 190 c
  || between 192 214 c || between 216 246 c || between 248 255 c.

Definition is_empty (s : string) : bool :=
  match s with
  | EmptyString => true
  | String _ _ => false
  end.

Fixpoint lstrip_with (sp : ascii -> bool) (s : string) : string :=
  match s with
  | EmptyString => EmptyString
  | String c s' => if sp c then lstrip_with sp s' else s
  end.

Fixpoint rstrip_with (sp : ascii -> bool) (s : string) : string :=
  match s with
  | EmptyString => EmptyString
  | String c s' =>
      let r := rstrip_with sp s' in
      if sp c && is_empty r then EmptyString else String c r
  end.

Definition strip_with (sp : ascii -> bool) (s : string) : string :=
  rstrip_with sp (lstrip_with sp s).

(** [s.strip()] *)
Definition strip (s : string) : string := strip_with isspace s.

(** ["".join(c for c in s if keep(c))] *)
Fixpoint filter_chars (keep : ascii -> bool) (s : string) : string :=
  match s with
  | EmptyString => EmptyString
  | String c s' =>
      if keep c then String c (filter_chars keep s') else filter_chars keep s'
  end.

(** [s.replace(old, new)] for one-character [old] and [new] *)
Fixpoint replace_char (old new : ascii) (s : string) : string :=
  match s with
  | EmptyString => EmptyString
  | String c s' =>
      String (if Ascii.eqb c old then new else c) (replace_char old new s')
  end.

Definition digit_of (c : ascii) : option Z :=
  if between 48 57 c then Some (Z.of_N (code c) - 48)%Z else None.

(** The digits of [int(s)] in base ten: digits with single underscores
    between them.  [prev] tells whether the previous character was a
    digit. *)
Fixpoint parse_digits (acc : Z) (prev : bool) (s : string) : option Z :=
  match s with
  | EmptyString => if prev then Some acc else None
  | String c s' =>
      match digit_of c with
      | Some d => parse_digits (10 * acc + d)%Z true s'
      | None =>
          if Ascii.eqb c "_" && prev then parse_digits acc false s' else None
      end
  end.

(** [int(s)], [None] when it raises [ValueError].  Integers are unbounded
    and the interpreter's limit on the number of digits of a conversion is
    not modelled. *)
Definition int (s : string) : option Z :=
  match strip_with int_isspace s with
  | String "+" r => parse_digits 0 false r
  | String "-" r => Z.opp <$> parse_digits 0 false r
  | r => parse_digits 0 false r
  end.

(** [str(n)] for an integer [n] *)
Definition str (n : Z) : string := NilZero.string_of_int (Z.to_int n).

Definition digit_char (n : nat) : ascii := ascii_of_nat (48 + n mod 10).

(** [f"{n:02d}"], [f"{n:04d}"] and [f"{n:06d}"] for a number that fits *)
Definition pad2 (n : nat) : string :=
  String (digit_char (n / 10)) (String (digit_char n) EmptyString).

Definition pad4 (n : nat) : string := pad2 (n / 100) +:+ pad2 (n mod 100).

Definition pad6 (n : nat) : string :=
  pad2 (n / 100 / 100) +:+ pad2 (n / 100 mod 100) +:+ pad2 (n mod 100).

End PyStr.

(** [os.path.join(a, b)] (POSIX) *)
Definition os_path_join (a b : string) : string :=
  match b with
  | String "/" _ => b
  | _ =>
      if PyStr.is_empty a then b
      else match String.rev a with
           | String "/" _ => a +:+ b
           | _ => a +:+ "/" +:+ b
           end
  end.

(** ** The clock *)
Record datetime : Type := DateTime {
  year : nat; month : nat; day : nat;
  hour : nat; minute : nat; second : nat; microsecond : nat
}.

(** [now.strftime("%Y-%m-%d")], for a year of four digits *)
Definition strftime_date (now : datetime) : string :=
  PyStr.pad4 (year now) +:+ "-" +:+ PyStr.pad2 (month now) +:+ "-"
  +:+ PyStr.pad2 (day now).

(** [now.strftime("%H:%M:%S")] *)
Definition strftime_time (now : datetime) : string :=
  PyStr.pad2 (hour now) +:+ ":" +:+ PyStr.pad2 (minute now) +:+ ":"
  +:+ PyStr.pad2 (second now).

(** [str(now)] *)
Definition str_datetime (now : datetime) : string :=
  strftime_date now +:+ " " +:+ strftime_time now
  +:+ (if Nat.eqb (microsecond now) 0 then ""
       else "." +:+ PyStr.pad6 (microsecond now)).

(** ** The tables

    The three CSV files hold rows of strings; a table is the list of its
    rows in file order, and an absent cell is the empty string (the loaders
    read with [dtype=str] and [fillna("")]). *)
Module Member.
Record t : Type := Row {
  ID : string; Name : string; Gender : string; Email : string;
  Mobile : string; Membership : string; Fee : string; JoinDate : string;
  ImagePath : string
}.
End Member.

Module Attendance.
Record t : Type := Row {
  ID : string; Name : string; Date : string; EntryTime : string;
  ExitTime : string; Status : string
}.
End Attendance.

Module Deleted.
Record t : Type := Row { member : Member.t; DeletedAt : string }.
End Deleted.

(** ** The loader of the Members table

    [load_members] is [pd.read_csv(MEM_FILE, dtype=str).fillna("")].  With
    [dtype=str] a cell keeps its text, except that [read_csv] takes the
    spellings of its default [na_values] for an absent cell, which
    [fillna("")] then turns into the empty string.  The file always has
    its nine columns, so the branch that adds an "ID" column is never
    taken.

    [load_attendance] and [load_deleted] read in the same way.  The cells
    the attendance and deletion branches write are cells of loaded rows,
    dates, times, the empty exit time and the two status words, which all
    read back as they are, so only the cells typed into the Register and
    Update forms pass through [read_cell] below. *)

(** The default [na_values] of pandas' [read_csv] ("None" is among them
    from pandas 2.0 on). *)
Definition STR_NA_VALUES : list string :=
  [""; "#N/A"; "#N/A N/A"; "#NA"; "-1.#IND"; "-1.#QNAN"; "-NaN"; "-nan";
   "1.#IND"; "1.#QNAN"; "<NA>"; "N/A"; "NA"; "NULL"; "NaN"; "None"; "n/a";
   "nan"; "null"].

(** A cell as [read_csv(..., dtype=str).fillna("")] returns it. *)
Definition read_cell (c : string) : string :=
  if bool_decide (c ∈ STR_NA_VALUES) then "" else c.

(** A written Members row as [load_members] returns it. *)
Definition read_member (m : Member.t) : Member.t :=
  Member.Row (read_cell (Member.ID m)) (read_cell (Member.Name m))
    (read_cell (Member.Gender m)) (read_cell (Member.Email m))
    (read_cell (Member.Mobile m)) (read_cell (Member.Membership m))
    (read_cell (Member.Fee m)) (read_cell (Member.JoinDate m))
    (read_cell (Member.ImagePath m)).

(** [load_members()], on the rows [save_members] wrote *)
Definition load_members (written : list Member.t) : list Member.t :=
  read_member <$> written.

(** The tables of a store are the tables as the loaders return them at
    the start of a branch: a row that a branch writes enters the store as
    the next load reads it, and rows that were loaded read back as they
    are. *)
Record store : Type := Store {
  members : list Member.t;
  attendance : list Attendance.t;
  deleted : list Deleted.t;
  files : filesystem
}.

(** What the camera or file widget hands over: a picture that PIL decodes
    (given by the JPEG bytes PIL then writes), or something it rejects. *)
Inductive upload : Type :=
| ImageFile (jpeg : string)
| NotAnImage.

(** The messages the branches show ([st.warning], [st.error], ...). *)
Inductive message : Type :=
| FillRequiredFields
| MemberIdExists
| FailedToSaveImage
| MemberRegistered (name id : string)
| MemberUpdated
| CouldNotSavePhoto
| EmailSent
| EmailNotSent (info : string)
| NoMembersAvailable
| MemberDeleted (id : string)
| FailedToReadCamera
| NoRegisteredMembers
| NoMatchingMember
| FaceDidNotMatch
| EntryAlreadyMarked (name : string)
| EntryRecorded (name time : string)
| NoOpenEntry
| ExitRecorded (name time : string)
| MatchDistance (d : PyFloat.t).

Definition IMG_DIR : string := "member_images".

(** [max(nums)] of a non-empty list *)
Definition py_max (x : Z) (xs : list Z) : Z := fold_left Z.max xs x.

(** [generate_member_id()], on the loaded Members table *)
Definition generate_member_id (members : list Member.t) : string :=
  match members with
  | [] => "1"
  | _ =>
      match omap (fun m => PyStr.int (Member.ID m)) members with
      | [] => "1"
      | n :: nums => PyStr.str (py_max n nums + 1)
      end
  end.

(** [safe_name] of [save_member_image] *)
Definition safe_name (name : string) : string :=
  PyStr.replace_char " " "_"
    (PyStr.strip
       (PyStr.filter_chars
          (fun c => PyStr.isalnum c || Ascii.eqb c " " || Ascii.eqb c "_")
          name)).

Definition image_filename (member_id name : string) : string :=
  member_id +:+ "_" +:+ safe_name name +:+ ".jpg".

Definition image_path (member_id name : string) : string :=
  os_path_join IMG_DIR (image_filename member_id name).

(** State of the matching loop: the script's [best] and [best_dist], and
    two ghost fields, the log of the calls made to [try_verify_faces] and
    whether the loop left through [break]. *)
Record scan_state : Type := ScanState {
  best : option (Member.t * option PyFloat.t);
  best_dist : PyFloat.t;
  calls : list (Member.t * (bool * option PyFloat.t));
  stopped : bool
}.

Definition scan_init : scan_state := ScanState None INITIAL_BEST_DIST [] false.

(** [is_match = (dist is not None and dist <= DISTANCE_THRESHOLD)
                or (dist is None and True)] *)
Definition is_match (dist : option PyFloat.t) : bool :=
  match dist with
  | Some d => PyFloat.le d DISTANCE_THRESHOLD
  | None => true
  end.

(** Result of the matching part of an attendance branch. *)
Inductive resolution : Type :=
| Matched (row : Member.t) (dist : option PyFloat.t)
| NoMatch (why : message).

(** The Register form. *)
Module Form.
Record t : Type := Make {
  id_input : string; name : string; gender : string; email : string;
  mobile : string; membership : string; fee : Z;
  join_date : nat * nat * nat;
  photo : option upload
}.
End Form.

(** The Update form; [fee] is [str(fee)] of the float the widget returns. *)
Module UpdateForm.
Record t : Type := Make {
  name : string; gender : string; email : string; mobile : string;
  membership : string; fee : string; join_date : nat * nat * nat;
  new_photo : option upload
}.
End UpdateForm.

(** [str(join_date)] *)
Definition str_date (d : nat * nat * nat) : string :=
  let '(y, m, dd) := d in
  PyStr.pad4 y +:+ "-" +:+ PyStr.pad2 m +:+ "-" +:+ PyStr.pad2 dd.

(** ** The attendance ledger *)

(** [if dist is not None: st.write(...)], after a recorded entry or exit *)
Definition distance_note (m : message) (dist : option PyFloat.t)
  : list message :=
  match m, dist with
  | (EntryRecorded _ _ | ExitRecorded _ _), Some d => [MatchDistance d]
  | _, _ => []
  end.

(** Entry record creation, the [if is_match:] block of the Entry branch. *)
Definition markEntry (attendance : list Attendance.t) (row : Member.t)
    (now : datetime) : list Attendance.t * message :=
  let today := strftime_date now in
  let idstr := Member.ID row in
  let exists_ :=
    filter (fun a => Attendance.ID a = idstr /\ Attendance.Date a = today)
      attendance in
  match exists_ with
  | _ :: _ => (attendance, EntryAlreadyMarked (Member.Name row))
  | [] =>
      let new_entry :=
        Attendance.Row idstr (Member.Name row) today (strftime_time now)
          "" "Present" in
      ((attendance ++ [new_entry])%list,
       EntryRecorded (Member.Name row) (Attendance.EntryTime new_entry))
  end.

Definition is_open_for (idstr today : string) (a : Attendance.t) : Prop :=
  (Attendance.ID a = idstr /\ Attendance.Date a = today)
  /\ Attendance.ExitTime a = "".

#[global] Instance is_open_for_dec idstr today a :
  Decision (is_open_for idstr today a).
Proof. unfold is_open_for. apply _. Defined.

Definition close_record (time : string) (a : Attendance.t) : Attendance.t :=
  Attendance.Row (Attendance.ID a) (Attendance.Name a) (Attendance.Date a)
    (Attendance.EntryTime a) time "Exited".

(** Exit record update, the [if is_match:] block of the Exit branch. *)
Definition markExit (attendance : list Attendance.t) (row : Member.t)
    (now : datetime) : list Attendance.t * message :=
  let today := strftime_date now in
  let idstr := Member.ID row in
  match list_find (is_open_for idstr today) attendance with
  | None => (attendance, NoOpenEntry)
  | Some (idx, _) =>
      let attendance' := alter (close_record (strftime_time now)) idx attendance in
      (attendance', ExitRecorded (Member.Name row) (strftime_time now))
  end.

(** ** Selecting a member in "Update / Delete Member" *)

(** [members[members["ID"] == sel_id].iloc[0]], [None] when it raises
    [IndexError]. *)
Definition selected_member (members : list Member.t) (sel_id : string)
  : option Member.t :=
  head (filter (fun m => Member.ID m = sel_id) members).

(** The selection guard [if sel_id and sel_id != "--select--"]. *)
Definition is_selected (sel_id : string) : bool :=
  negb (PyStr.is_empty sel_id) && negb (bool_decide (sel_id = "--select--")).

(** The assignment through [members.loc[members["ID"] == sel_id, ...]],
    as the next [load_members] reads it: the cells taken from the form
    pass through [read_cell]; the ID cell is a loaded one, and the image
    path is either the loaded cell or a path [save_member_image]
    returned, which all read back as they are. *)
Definition update_row (sel_id : string) (f : UpdateForm.t)
    (img_path : string) (m : Member.t) : Member.t :=
  if bool_decide (Member.ID m = sel_id) then
    Member.Row (Member.ID m) (read_cell (UpdateForm.name f))
      (read_cell (UpdateForm.gender f)) (read_cell (UpdateForm.email f))
      (read_cell (UpdateForm.mobile f)) (read_cell (UpdateForm.membership f))
      (read_cell (UpdateForm.fee f))
      (read_cell (str_date (UpdateForm.join_date f))) img_path
  else m.

Section App.

(** The external verification service. *)
Variable DeepFace_verify : filesystem -> string -> string -> verify_result.

(** Whether creating or truncating the file at a path succeeds. *)
Variable can_write : filesystem -> string -> bool.

(** [send_email_using_config(to_email, subject, body)]; the body is not
    modelled. *)
Variable send_email_using_config : string -> string -> bool * string.

(** [save_member_image(uploaded_file, member_id, name)]: the files after
    the call and the returned path, [None] when the call raises.  When PIL
    rejects the upload the fallback opens the path for writing, which
    empties the file, and then raises on [f.write] of an object that is not
    bytes. *)
Definition save_member_image (fs : filesystem) (uploaded_file : upload)
    (member_id name : string) : filesystem * option string :=
  let path := image_path member_id name in
  if can_write fs path then
    match uploaded_file with
    | ImageFile jpeg => (<[path := jpeg]> fs, Some path)
    | NotAnImage => (<[path := ""]> fs, None)
    end
  else (fs, None).

(** Body of the matching loop over [members.iterrows()].  [break] is the
    state with [stopped] set. *)
Fixpoint scan_loop (fs : filesystem) (temp_path : string)
    (rows : list Member.t) (st : scan_state) : scan_state :=
  match rows with
  | [] => st
  | row :: rest =>
      let member_img := Member.ImagePath row in
      if PyStr.is_empty member_img || negb (os_path_exists fs member_img) then
        scan_loop fs temp_path rest st
      else
        let '(match_, distance, _) :=
          try_verify_faces DeepFace_verify fs temp_path member_img in
        let log := (calls st ++ [(row, (match_, distance))])%list in
        match distance with
        | None =>
            if match_ then ScanState (Some (row, distance)) (best_dist st) log true
            else scan_loop fs temp_path rest
                   (ScanState (best st) (best_dist st) log false)
        | Some d =>
            let st' :=
              if PyFloat.lt d (best_dist st)
              then ScanState (Some (row, distance)) d log false
              else ScanState (best st) (best_dist st) log false in
            if PyFloat.le d DISTANCE_THRESHOLD
            then ScanState (best st') (best_dist st') log true
            else scan_loop fs temp_path rest st'
        end
  end.

(** The matching part shared by the two attendance branches, from
    [members = load_members()] to [is_match]. *)
Definition resolve (fs : filesystem) (temp_path : string)
    (members : list Member.t) : resolution :=
  match members with
  | [] => NoMatch NoRegisteredMembers
  | _ =>
      match best (scan_loop fs temp_path members scan_init) with
      | None => NoMatch NoMatchingMember
      | Some (row, dist) =>
          if is_match dist then Matched row dist else NoMatch FaceDidNotMatch
      end
  end.

(** Reading the camera picture into the temporary file. *)
Definition save_probe (fs : filesystem) (temp_path : string)
    (uploaded : upload) : option filesystem :=
  match uploaded with
  | ImageFile jpeg =>
      if can_write fs temp_path then Some (<[temp_path := jpeg]> fs) else None
  | NotAnImage => None
  end.

(** Menu branch "Attendance - Entry". *)
Definition attendance_entry (s : store) (uploaded : option upload)
    (now : datetime) : store * list message :=
  match uploaded with
  | None => (s, [])
  | Some up =>
      match save_probe (files s) "temp_entry.jpg" up with
      | None => (s, [FailedToReadCamera])
      | Some fs =>
          let s1 := Store (members s) (attendance s) (deleted s) fs in
          match resolve fs "temp_entry.jpg" (members s) with
          | NoMatch why => (s1, [why])
          | Matched row dist =>
              let '(att, msg) := markEntry (attendance s) row now in
              (Store (members s) att (deleted s) fs,
               msg :: distance_note msg dist)
          end
      end
  end.

(** Menu branch "Attendance - Exit". *)
Definition attendance_exit (s : store) (uploaded : option upload)
    (now : datetime) : store * list message :=
  match uploaded with
  | None => (s, [])
  | Some up =>
      match save_probe (files s) "temp_exit.jpg" up with
      | None => (s, [FailedToReadCamera])
      | Some fs =>
          let s1 := Store (members s) (attendance s) (deleted s) fs in
          match resolve fs "temp_exit.jpg" (members s) with
          | NoMatch why => (s1, [why])
          | Matched row dist =>
              let '(att, msg) := markExit (attendance s) row now in
              (Store (members s) att (deleted s) fs,
               msg :: distance_note msg dist)
          end
      end
  end.

(** Submit handler of the menu branch "Register Member".  The duplicate
    test compares the ID as typed with the loaded ID cells; the row it
    then writes enters the table as [load_members] reads it back. *)
Definition register_member (s : store) (f : Form.t) : store * list message :=
  match Form.photo f with
  | Some photo =>
      if PyStr.is_empty (Form.name f) || PyStr.is_empty (Form.email f)
         || PyStr.is_empty (Form.mobile f)
      then (s, [FillRequiredFields])
      else
        let member_id :=
          if negb (PyStr.is_empty (PyStr.strip (Form.id_input f)))
          then PyStr.strip (Form.id_input f)
          else generate_member_id (members s) in
        if bool_decide (member_id ∈ Member.ID <$> members s)
        then (s, [MemberIdExists])
        else
          let '(fs, saved) :=
            save_member_image (files s) photo member_id (Form.name f) in
          let img_path := default "" saved in
          let new_row :=
            Member.Row member_id (Form.name f) (Form.gender f) (Form.email f)
              (Form.mobile f) (Form.membership f) (PyStr.str (Form.fee f))
              (str_date (Form.join_date f)) img_path in
          let '(sent, info) :=
            send_email_using_config (Form.email f)
              "Gym Registration Successful" in
          (Store (members s ++ [read_member new_row])%list (attendance s)
             (deleted s) fs,
           (match saved with Some _ => [] | None => [FailedToSaveImage] end
            ++ [MemberRegistered (Form.name f) member_id;
                if sent then EmailSent else EmailNotSent info])%list)
  | None => (s, [FillRequiredFields])
  end.

(** "Update Member" of the menu branch "Update / Delete Member"; [None]
    when the branch raises. *)
Definition update_member (s : store) (sel_id : string) (f : UpdateForm.t)
  : option (store * list message) :=
  match members s with
  | [] => Some (s, [NoMembersAvailable])
  | _ =>
      if is_selected sel_id then
        member ← selected_member (members s) sel_id;
        let '(fs, img_path, msgs) :=
          match UpdateForm.new_photo f with
          | Some new_photo =>
              match save_member_image (files s) new_photo sel_id
                      (UpdateForm.name f) with
              | (fs, Some path) => (fs, path, [])
              | (fs, None) => (fs, Member.ImagePath member, [CouldNotSavePhoto])
              end
          | None => (files s, Member.ImagePath member, [])
          end in
        let '(sent, info) :=
          send_email_using_config (UpdateForm.email f)
            "Gym Membership Updated" in
        Some (Store (update_row sel_id f img_path <$> members s)
                (attendance s) (deleted s) fs,
              (msgs ++ [MemberUpdated;
                        if sent then EmailSent else EmailNotSent info])%list)
      else Some (s, [])
  end.

(** "Delete Member (permanent)" of the same branch; [None] when the branch
    raises.  Removing a file always succeeds here. *)
Definition delete_member (s : store) (sel_id : string) (now : datetime)
  : option (store * list message) :=
  match members s with
  | [] => Some (s, [NoMembersAvailable])
  | _ =>
      if is_selected sel_id then
        row ← selected_member (members s) sel_id;
        let deleted' :=
          (deleted s ++ [Deleted.Row row (str_datetime now)])%list in
        let fs :=
          if negb (PyStr.is_empty (Member.ImagePath row))
             && os_path_exists (files s) (Member.ImagePath row)
          then delete (Member.ImagePath row) (files s)
          else files s in
        let members' := filter (fun m => Member.ID m <> sel_id) (members s) in
        let attendance' :=
          filter (fun a => Attendance.ID a <> sel_id) (attendance s) in
        let '(sent, info) :=
          send_email_using_config (Member.Email row)
            "Gym Membership Deleted" in
        Some (Store members' attendance' deleted' fs,
              [MemberDeleted sel_id;
               if sent then EmailSent else EmailNotSent info])
      else Some (s, [])
  end.

End App.

(** "Delete All Data" of the menu branch "Reset DB": the three CSV files
    are removed and [ensure_csv_files] writes them anew, with no row;
    [shutil.rmtree(IMG_DIR)], an external function of the files on disk,
    removes the images.  (The mail settings, removed too, are not part of
    the store.) *)
Definition reset_db (rmtree : filesystem -> string -> filesystem)
    (s : store) : store :=
  Store [] [] [] (rmtree (files s) IMG_DIR).

(** ** Vocabulary for the properties of the matching loop *)

(** What the loop learns about one member: nothing when the row is skipped
    (no stored path, or no file there), else the verdict and distance
    returned by [try_verify_faces]. *)
Definition verdict (DeepFace_verify : filesystem -> string -> string -> verify_result)
    (fs : filesystem) (temp_path : string) (row : Member.t)
  : option (bool * option PyFloat.t) :=
  let member_img := Member.ImagePath row in
  if PyStr.is_empty member_img || negb (os_path_exists fs member_img) then None
  else Some (fst (try_verify_faces DeepFace_verify fs temp_path member_img)).

(** A verdict that is good enough: a distance at most the threshold, or the
    matcher's own [true] when there is no distance. *)
Definition accepts (v : bool * option PyFloat.t) : bool :=
  match v with
  | (_, Some d) => PyFloat.le d DISTANCE_THRESHOLD
  | (m, None) => m
  end.

Definition hit (DeepFace_verify : filesystem -> string -> string -> verify_result)
    (fs : filesystem) (temp_path : string) (row : Member.t) : bool :=
  match verdict DeepFace_verify fs temp_path row with
  | Some v => accepts v
  | None => false
  end.

(** The matcher calls a scan of [rows] makes when nothing stops it. *)
Definition calls_of (DeepFace_verify : filesystem -> string -> string -> verify_result)
    (fs : filesystem) (temp_path : string) (rows : list Member.t)
  : list (Member.t * (bool * option PyFloat.t)) :=
  omap (fun row => pair row <$> verdict DeepFace_verify fs temp_path row) rows.

(** The loop state after a member that does not stop the scan. *)
Definition advance (st : scan_state) (row : Member.t)
    (v : bool * option PyFloat.t) : scan_state :=
  let log := (calls st ++ [(row, v)])%list in
  match snd v with
  | Some d =>
      if PyFloat.lt d (best_dist st)
      then ScanState (Some (row, Some d)) d log false
      else ScanState (best st) (best_dist st) log false
  | None => ScanState (best st) (best_dist st) log false
  end.

(** The threshold lies strictly below [best_dist]. *)
Definition above (st : scan_state) : Prop :=
  PyFloat.lt DISTANCE_THRESHOLD (best_dist st) = true.

(** [best] holds the smallest distance of the log, with a member that
    produced it; it is empty only while no logged distance is below the
    initial [best_dist]. *)
Definition tracks_minimum (st : scan_state) : Prop :=
  (forall r m d, (r, (m, Some d)) ∈ calls st ->
                 PyFloat.lt d (best_dist st) = false)
  /\ match best st with
     | Some (row, dist) =>
         dist = Some (best_dist st)
         /\ exists m, (row, (m, dist)) ∈ calls st
     | None => best_dist st = INITIAL_BEST_DIST
     end.

(** Two loop states that agree on the script's variables. *)
Definition same_vars (st1 st2 : scan_state) : Prop :=
  best st1 = best st2 /\ best_dist st1 = best_dist st2.

(** A well-formed Attendance row: an entry time, and either no exit time
    with Status "Present" or an exit time with Status "Exited". *)
Definition row_ok (a : Attendance.t) : Prop :=
  Attendance.EntryTime a <> ""
  /\ ((Attendance.ExitTime a = "" /\ Attendance.Status a = "Present")
      \/ (Attendance.ExitTime a <> "" /\ Attendance.Status a = "Exited")).

(** ** The sanitized name, in the specification's words

    Keep only the alphanumeric characters, the spaces and the underscores
    of the name; strip leading and trailing whitespace; replace spaces with
    underscores.  Stated on lists of characters, to be compared with
    [safe_name]. *)
Fixpoint drop_while {A : Type} (p : A -> bool) (l : list A) : list A :=
  match l with
  | [] => []
  | x :: l' => if p x then drop_while p l' else l
  end.

Definition spec_safe_name (name : list ascii) : list ascii :=
  let kept :=
    List.filter
      (fun c => PyStr.isalnum c || Ascii.eqb c " " || Ascii.eqb c "_") name in
  let stripped :=
    rev (drop_while PyStr.isspace (rev (drop_while PyStr.isspace kept))) in
  map (fun c => if Ascii.eqb c " " then "_"%char else c) stripped.

(** ** Vocabulary for the properties of the tables *)

(** A Members row that [load_members] returns as it is. *)
Definition loaded (m : Member.t) : Prop := read_member m = m.

(** The Attendance rows of one member on one day, the selection
    [(attendance["ID"] == idstr) & (attendance["Date"] == today)]. *)
Definition records_for (idstr today : string) (att : list Attendance.t)
  : list Attendance.t :=
  filter (fun a => Attendance.ID a = idstr /\ Attendance.Date a = today) att.

Section Runs.

Variable DeepFace_verify : filesystem -> string -> string -> verify_result.
Variable can_write : filesystem -> string -> bool.
Variable send_email_using_config : string -> string -> bool * string.

(** One use of a menu branch that changes the store. *)
Inductive step (s : store) : store -> Prop :=
| step_register f :
    step s (fst (register_member can_write send_email_using_config s f))
| step_update sel_id f s' msgs :
    update_member can_write send_email_using_config s sel_id f
    = Some (s', msgs) ->
    step s s'
| step_delete sel_id now s' msgs :
    delete_member send_email_using_config s sel_id now = Some (s', msgs) ->
    step s s'
| step_entry uploaded now :
    step s (fst (attendance_entry DeepFace_verify can_write s uploaded now))
| step_exit uploaded now :
    step s (fst (attendance_exit DeepFace_verify can_write s uploaded now))
| step_reset rmtree :
    step s (reset_db rmtree s).

(** The stores a run can reach from a fresh Attendance table (the one
    [ensure_csv_files] creates, also after "Reset DB"). *)
Inductive reachable : store -> Prop :=
| reach_fresh s : attendance s = [] -> reachable s
| reach_step s s' : reachable s -> step s s' -> reachable s'.

End Runs.

(** ** The browsing branches

    "View Members" and "View Attendance" show the table, filtered.  The
    partial-match filters go through pandas' [Series.str.contains], an
    external function of the pattern and the column: it returns one
    boolean per row, or raises ([None]). *)
Inductive view (A : Type) : Type :=
| NothingStored
| NothingMatches
| Table (rows : list A).

Arguments NothingStored {A}.
Arguments NothingMatches {A}.
Arguments Table {A} rows.

(** [df[mask]] *)
Fixpoint select_mask {A : Type} (mask : list bool) (rows : list A) : list A :=
  match mask, rows with
  | b :: mask', r :: rows' =>
      if b then r :: select_mask mask' rows' else select_mask mask' rows'
  | _, _ => []
  end.

(** [if pattern: df = df[df[column].str.contains(pattern, ...)]] *)
Definition filter_contains {A : Type}
    (contains : string -> list string -> option (list bool))
    (pattern : string) (column : A -> string) (df : list A)
  : option (list A) :=
  if PyStr.is_empty pattern then Some df
  else mask ← contains pattern (column <$> df); Some (select_mask mask df).

Definition show {A : Type} (df : list A) : view A :=
  match df with
  | [] => NothingMatches
  | _ => Table df
  end.

Section Browse.

(** [str.contains(pat, case=False, na=False)] and
    [str.contains(pat, na=False)] *)
Variable contains_nocase : string -> list string -> option (list bool).
Variable contains_case : string -> list string -> option (list bool).

(** Menu branch "View Members"; [None] when a filter raises. *)
Definition view_members (members : list Member.t)
    (id_filter name_filter phone_filter : string)
  : option (view Member.t) :=
  match members with
  | [] => Some NothingStored
  | _ =>
      let df := members in
      let df :=
        if PyStr.is_empty id_filter then df
        else filter (fun m => Member.ID m = id_filter) df in
      df ← filter_contains contains_nocase name_filter Member.Name df;
      df ← filter_contains contains_case phone_filter Member.Mobile df;
      Some (show df)
  end.

(** Menu branch "View Attendance"; [None] when the name filter raises. *)
Definition view_attendance (attendance : list Attendance.t)
    (date_filter : option (nat * nat * nat)) (id_filter name_filter : string)
  : option (view Attendance.t) :=
  match attendance with
  | [] => Some NothingStored
  | _ =>
      let df := attendance in
      let df :=
        match date_filter with
        | Some d => filter (fun a => Attendance.Date a = str_date d) df
        | None => df
        end in
      let df :=
        if PyStr.is_empty id_filter then df
        else filter (fun a => Attendance.ID a = id_filter) df in
      df ← filter_contains contains_nocase name_filter Attendance.Name df;
      Some (show df)
  end.

End Browse.

(** ** Mail settings and the mail helper

    [config.json] holds a dictionary of strings; the file is [None] while
    it is missing or unreadable.  The SMTP conversation is external: given
    sender, password, recipient and subject it succeeds ([None]) or raises
    with a message. *)
Module Mail.

Definition config_file : Type := option (gmap string string).

(** [load_config()] *)
Definition load_config (file : config_file) : gmap string string :=
  default ∅ file.

(** [save_config(cfg)] *)
Definition save_config (cfg : gmap string string) : config_file := Some cfg.

(** "Save SMTP Settings" of the sidebar: the file afterwards, and whether
    the settings were saved (a warning is shown otherwise). *)
Definition save_smtp_settings (file : config_file)
    (admin_email admin_pass : string) : config_file * bool :=
  if PyStr.is_empty admin_email || PyStr.is_empty admin_pass
  then (file, false)
  else (save_config {[ "admin_email" := admin_email;
                       "admin_pass" := admin_pass ]}, true).

(** [send_email_using_config(to_email, subject, body)]; the body is not
    modelled. *)
Definition send_email_using_config (file : config_file)
    (smtp : string -> string -> string -> string -> option string)
    (to_email subject : string) : bool * string :=
  let cfg_local := load_config file in
  let admin_email := default "" (cfg_local !! "admin_email") in
  let admin_pass := default "" (cfg_local !! "admin_pass") in
  if PyStr.is_empty admin_email || PyStr.is_empty admin_pass
  then (false, "SMTP not configured. Set in sidebar.")
  else match smtp admin_email admin_pass to_email subject with
       | None => (true, "Email sent")
       | Some e => (false, e)
       end.

End Mail.

(** ** A small gym, for worked examples *)
Module Sample.

Definition ann : Member.t :=
  Member.Row "1" "Ann Lee" "Female" "ann@example.org" "5550001" "Monthly"
    "500" "2024-01-01" "member_images/1_Ann_Lee.jpg".

Definition bob : Member.t :=
  Member.Row "2" "Bob Ray" "Male" "bob@example.org" "5550002" "Yearly"
    "5000" "2024-01-02" "member_images/2_Bob_Ray.jpg".

Definition fs : filesystem :=
  {[ "member_images/1_Ann_Lee.jpg" := "picture of Ann";
     "member_images/2_Bob_Ray.jpg" := "picture of Bob" ]}.

Definition far : gmap string pyobj :=
  {[ "verified" := PyObj true None;
     "distance" := PyObj true (Some (PyFloat.Fin (8 # 10))) ]}.

Definition near : gmap string pyobj :=
  {[ "verified" := PyObj false None;
     "distance" := PyObj true (Some (PyFloat.Fin (3 # 10))) ]}.

(** A service for which the probe is at distance 0.8 from Ann's photo and
    0.3 from Bob's, and which fails on any other file. *)
Definition verify (_ : filesystem) (_ img2_path : string) : verify_result :=
  if String.eqb img2_path "member_images/1_Ann_Lee.jpg" then Returned far
  else if String.eqb img2_path "member_images/2_Bob_Ray.jpg" then Returned near
  else Raised "Face could not be detected".

Definition can_write (_ : filesystem) (_ : string) : bool := true.

Definition send_email (_ _ : string) : bool * string :=
  (false, "SMTP not configured. Set in sidebar.").

Definition morning : datetime := DateTime 2024 1 1 9 30 0 0.
Definition evening : datetime := DateTime 2024 1 1 18 5 0 0.

Definition open_row : Attendance.t :=
  Attendance.Row "1" "Ann Lee" "2024-01-01" "09:30:00" "" "Present".

Definition store0 : store :=
  Store [ann; bob] [Attendance.Row "2" "Bob Ray" "2023-12-31" "08:00:00"
                      "09:00:00" "Exited"; open_row] [] fs.

Definition fresh : store := Store [ann; bob] [] [] fs.

Definition form : Form.t :=
  Form.Make " 1 " "Cy Dee" "Other" "cy@example.org" "5550003" "Quarterly"
    1400 (2024, 1, 3) (Some (ImageFile "picture of Cy")).

Definition blank_form : Form.t :=
  Form.Make "" "Cy Dee" "Other" "cy@example.org" "5550003" "Quarterly"
    1400 (2024, 1, 3) (Some (ImageFile "picture of Cy")).

End Sample.

(** ** More sample data, for the further properties *)
Module Demo.

(** A member whose stored photo is not on disk. *)
Definition cy : Member.t :=
  Member.Row "3" "Cy Dee" "Other" "cy@example.org" "5550003" "Quarterly"
    "1400" "2024-01-03" "member_images/3_Cy_Dee.jpg".

(** A service for which both Ann (0.5) and Bob (0.3) are within the
    threshold. *)
Definition close_to (d : Q) : gmap string pyobj :=
  {[ "verified" := PyObj true None;
     "distance" := PyObj true (Some (PyFloat.Fin d)) ]}.

Definition verify_both (_ : filesystem) (_ img2_path : string)
  : verify_result :=
  if String.eqb img2_path "member_images/1_Ann_Lee.jpg"
  then Returned (close_to (5 # 10))
  else Returned (close_to (3 # 10)).

Definition bad_photo_form : Form.t :=
  Form.Make "" "Cy Dee" "Other" "cy@example.org" "5550003" "Quarterly"
    1400 (2024, 1, 3) (Some NotAnImage).

Definition update_form : UpdateForm.t :=
  UpdateForm.Make "Ann Lee" "Female" "ann@example.org" "5550001" "Yearly"
    "5000.0" (2024, 1, 1) (Some NotAnImage).

(** A store reached by Bob's check-in on the morning of 2024-01-01. *)
Definition after_entry : store :=
  fst (attendance_entry Sample.verify Sample.can_write Sample.fresh
         (Some (ImageFile "probe")) Sample.morning).

(** A stand-in for [Series.str.contains] that keeps every row. *)
Definition contains_all (_ : string) (column : list string)
  : option (list bool) :=
  Some ((fun _ => true) <$> column).

(** A transport that always succeeds. *)
Definition smtp (_ _ _ _ : string) : option string := None.

(** A registration that names the ID "NA". *)
Definition na_form : Form.t :=
  Form.Make "NA" "Cy Dee" "Other" "cy@example.org" "5550003" "Quarterly"
    1400 (2024, 1, 3) (Some (ImageFile "picture of Cy")).

(** A store whose archive already holds a deleted member. *)
Definition archived : store :=
  Store [Sample.ann; Sample.bob] []
    [Deleted.Row cy "2023-12-31 10:00:00"] Sample.fs.

End Demo.

(** * Properties *)

(** ** Properties of the face matcher *)

Lemma first_distance_None keys (res : gmap string pyobj) :
  first_distance keys res = None <->
  forall k v, k ∈ keys -> res !! k = Some v -> py_float v = None.
Proof.
  induction keys as [|k ks IH]; simpl.
  - split; [intros _ k v Hk; inversion Hk | done].
  - destruct (res !! k) as [v|] eqn:Hk.
    + destruct (py_float v) as [d|] eqn:Hv.
      * split; [done|]. intros H. specialize (H k v). rewrite Hv in H.
        apply H; [left | done].
      * rewrite IH. split.
        -- intros H k' v' Hin Hk'. apply elem_of_cons in Hin as [->|Hin].
           ++ congruence.
           ++ eauto.
        -- intros H k' v' Hin. apply H. by right.
    + rewrite IH. split.
      * intros H k' v' Hin Hk'. apply elem_of_cons in Hin as [->|Hin].
        -- congruence.
        -- eauto.
      * intros H k' v' Hin. apply H. by right.
Qed.

Lemma first_distance_Some keys (res : gmap string pyobj) d :
  first_distance keys res = Some d ->
  exists k v, k ∈ keys /\ res !! k = Some v /\ py_float v = Some d.
Proof.
  induction keys as [|k ks IH]; simpl; [done|].
  destruct (res !! k) as [v|] eqn:Hk.
  - destruct (py_float v) as [d'|] eqn:Hv.
    + intros [= ->]. exists k, v. split; [left | done].
    + intros H. destruct (IH H) as (k' & v' & ? & ? & ?).
      exists k', v'. split; [by right | done].
  - intros H. destruct (IH H) as (k' & v' & ? & ? & ?).
    exists k', v'. split; [by right | done].
Qed.

Section MatcherProperties.

Variable DeepFace_verify : filesystem -> string -> string -> verify_result.

(** C5: [try_verify_faces] always returns a triple.  When the service
    raises, the triple is (false, no distance, the error).  When the result
    holds a value under "distance", "cosine" or "euclidean" that converts
    to a float, the verdict is [distance <= 0.6] whatever the service's own
    verdict says.  When no such value exists, the verdict is the service's
    own ([bool(res.get("verified", False))]). *)
Theorem try_verify_faces_contract (fs : filesystem) (img1 img2 : string) :
  (forall e, DeepFace_verify fs img1 img2 = Raised e ->
     try_verify_faces DeepFace_verify fs img1 img2 = (false, None, ErrorDict e))
  /\ (forall res, DeepFace_verify fs img1 img2 = Returned res ->
        ((exists k v, k ∈ distance_keys /\ res !! k = Some v
                      /\ is_Some (py_float v)) ->
         exists d,
           (exists k v, k ∈ distance_keys /\ res !! k = Some v
                        /\ py_float v = Some d)
           /\ try_verify_faces DeepFace_verify fs img1 img2
              = (PyFloat.le d DISTANCE_THRESHOLD, Some d, ServiceResult res))
        /\ ((forall k v, k ∈ distance_keys -> res !! k = Some v ->
                         py_float v = None) ->
            try_verify_faces DeepFace_verify fs img1 img2
            = (from_option py_bool false (res !! "verified"), None,
               ServiceResult res))).
Proof.
  unfold try_verify_faces. split.
  - intros e ->. reflexivity.
  - intros res ->. split.
    + intros (k & v & Hk & Hv & [d Hd]).
      destruct (first_distance distance_keys res) as [d'|] eqn:Hfd.
      * exists d'. split; [by apply first_distance_Some | reflexivity].
      * apply first_distance_None with (k := k) (v := v) in Hfd; congruence.
    + intros Hnone. apply first_distance_None in Hnone. rewrite Hnone.
      destruct (res !! "verified"); reflexivity.
Qed.

End MatcherProperties.

(** ** Comparisons of distances *)

Lemma Qle_bool_false_lt (x y : Q) : Qle_bool x y = false -> (y < x)%Q.
Proof.
  intros H. apply Qnot_le_lt. intros Hle.
  apply Qle_bool_iff in Hle. congruence.
Qed.

Lemma Qlt_negb_le (x y : Q) : (x < y)%Q -> negb (Qle_bool y x) = true.
Proof.
  intros H. destruct (Qle_bool y x) eqn:E; [|done].
  apply Qle_bool_iff in E. exfalso. by apply (Qlt_not_le x y).
Qed.

Lemma negb_le_Qlt (x y : Q) : negb (Qle_bool y x) = true -> (x < y)%Q.
Proof.
  intros H. apply Qle_bool_false_lt. by destruct (Qle_bool y x).
Qed.

Lemma pyfloat_lt_trans (a b c : PyFloat.t) :
  PyFloat.lt a b = true -> PyFloat.lt b c = true -> PyFloat.lt a c = true.
Proof.
  destruct a, b, c; simpl; try done.
  intros H1%negb_le_Qlt H2%negb_le_Qlt. apply Qlt_negb_le.
  by apply Qlt_trans with q0.
Qed.

Lemma pyfloat_le_lt_trans (a b c : PyFloat.t) :
  PyFloat.le a b = true -> PyFloat.lt b c = true -> PyFloat.lt a c = true.
Proof.
  destruct a, b, c; simpl; try done.
  intros H1%Qle_bool_iff H2%negb_le_Qlt. apply Qlt_negb_le.
  by apply Qle_lt_trans with q0.
Qed.

Lemma threshold_below_miss (d bd : PyFloat.t) :
  PyFloat.le d DISTANCE_THRESHOLD = false -> PyFloat.lt d bd = true ->
  PyFloat.lt DISTANCE_THRESHOLD d = true.
Proof.
  destruct d, bd; simpl; try done.
  - intros H _. by apply Qlt_negb_le, Qle_bool_false_lt.
  - intros H _. by apply Qlt_negb_le, Qle_bool_false_lt.
Qed.

Lemma pyfloat_lt_irrefl (a : PyFloat.t) : PyFloat.lt a a = false.
Proof.
  destruct a as [q| | |]; simpl; try done.
  assert (Qle_bool q q = true) as -> by (apply Qle_bool_iff, Qle_refl).
  done.
Qed.

Lemma threshold_below_initial :
  PyFloat.lt DISTANCE_THRESHOLD INITIAL_BEST_DIST = true.
Proof. reflexivity. Qed.

(** ** The matching loop *)

Section Resolver.

Variable DeepFace_verify : filesystem -> string -> string -> verify_result.
Variable fs : filesystem.
Variable temp_path : string.

Local Abbreviation scan := (scan_loop DeepFace_verify fs temp_path).
Local Abbreviation verdict_of := (verdict DeepFace_verify fs temp_path).
Local Abbreviation hits := (hit DeepFace_verify fs temp_path).
Local Abbreviation log_of := (calls_of DeepFace_verify fs temp_path).

Lemma scan_skip row rest st :
  verdict_of row = None -> scan (row :: rest) st = scan rest st.
Proof.
  unfold verdict. simpl. intros H.
  destruct (PyStr.is_empty _ || negb _); [done | discriminate].
Qed.

Lemma scan_miss row rest st v :
  verdict_of row = Some v -> accepts v = false ->
  scan (row :: rest) st = scan rest (advance st row v).
Proof.
  unfold verdict. simpl. intros H Hacc.
  destruct (PyStr.is_empty _ || negb _); [discriminate|].
  destruct (try_verify_faces _ _ _ _) as [[m dist] det].
  injection H as <-. unfold advance. simpl in *.
  destruct dist as [d|].
  - rewrite Hacc. by destruct (PyFloat.lt d (best_dist st)).
  - by rewrite Hacc.
Qed.

Lemma scan_hit row rest st v :
  verdict_of row = Some v -> accepts v = true -> above st ->
  scan (row :: rest) st
  = ScanState (Some (row, snd v)) (default (best_dist st) (snd v))
      (calls st ++ [(row, v)]) true.
Proof.
  unfold verdict, above. simpl. intros H Hacc Hab.
  destruct (PyStr.is_empty _ || negb _); [discriminate|].
  destruct (try_verify_faces _ _ _ _) as [[m dist] det].
  injection H as <-. simpl in *.
  destruct dist as [d|]; simpl.
  - rewrite Hacc. by rewrite (pyfloat_le_lt_trans _ _ _ Hacc Hab).
  - by rewrite Hacc.
Qed.

Lemma above_advance st row v :
  above st -> accepts v = false -> above (advance st row v).
Proof.
  unfold above, advance. destruct v as [m [d|]]; simpl; [|done].
  intros Hab Hacc. destruct (PyFloat.lt d (best_dist st)) eqn:Hlt; simpl.
  - by apply threshold_below_miss with (best_dist st).
  - done.
Qed.

Lemma tracks_minimum_advance st row v :
  tracks_minimum st -> tracks_minimum (advance st row v).
Proof.
  unfold tracks_minimum, advance. intros [Hmin Hbest].
  destruct v as [m [d|]]; simpl.
  - destruct (PyFloat.lt d (best_dist st)) eqn:Hlt; simpl.
    + split.
      * intros r m' d' [Hin|Hin%list_elem_of_singleton]%elem_of_app.
        -- destruct (PyFloat.lt d' d) eqn:Hlt'; [|done].
           pose proof (pyfloat_lt_trans _ _ _ Hlt' Hlt) as Habs.
           by rewrite (Hmin r m' d' Hin) in Habs.
        -- injection Hin as -> -> ->. apply pyfloat_lt_irrefl.
      * split; [done|]. exists m. apply elem_of_app. right. by left.
    + split.
      * intros r m' d' [Hin|Hin%list_elem_of_singleton]%elem_of_app.
        -- eauto.
        -- by injection Hin as -> -> ->.
      * destruct (best st) as [[row' dist']|]; [|done].
        destruct Hbest as [-> [m' Hin]]. split; [done|].
        exists m'. apply elem_of_app. by left.
  - split.
    + intros r m' d' [Hin|Hin%list_elem_of_singleton]%elem_of_app.
      * eauto.
      * discriminate.
    + destruct (best st) as [[row' dist']|]; [|done].
      destruct Hbest as [-> [m' Hin]]. split; [done|].
      exists m'. apply elem_of_app. by left.
Qed.

Lemma advance_stopped st row v : stopped (advance st row v) = false.
Proof.
  destruct v as [m [d|]]; unfold advance; simpl; [|done].
  by destruct (PyFloat.lt d (best_dist st)).
Qed.

Lemma advance_calls st row v :
  calls (advance st row v) = (calls st ++ [(row, v)])%list.
Proof.
  destruct v as [m [d|]]; unfold advance; simpl; [|done].
  by destruct (PyFloat.lt d (best_dist st)).
Qed.

Lemma log_of_cons row rows :
  log_of (row :: rows)
  = match verdict_of row with
    | Some v => (row, v) :: log_of rows
    | None => log_of rows
    end.
Proof. unfold calls_of. simpl. by destruct (verdict_of row). Qed.

Lemma tracks_minimum_init : tracks_minimum scan_init.
Proof. split; [intros r m d Hin; inversion Hin | done]. Qed.

(** A scan over rows none of which stops it. *)
Lemma scan_no_hit pre rest st :
  (forall r, r ∈ pre -> hits r = false) -> above st -> tracks_minimum st ->
  stopped st = false ->
  exists st',
    scan (pre ++ rest) st = scan rest st'
    /\ scan pre st = st'
    /\ above st' /\ tracks_minimum st' /\ stopped st' = false
    /\ calls st' = (calls st ++ log_of pre)%list.
Proof.
  revert st. induction pre as [|row pre IH]; intros st Hno Hab Htr Hst.
  - exists st. simpl. by rewrite app_nil_r.
  - assert (Hrow : hits row = false) by (apply Hno; left).
    assert (Hpre : forall r, r ∈ pre -> hits r = false)
      by (intros r Hr; apply Hno; by right).
    unfold hit in Hrow. rewrite log_of_cons.
    destruct (verdict_of row) as [v|] eqn:Hv.
    + rewrite <- app_comm_cons, !(scan_miss _ _ _ v Hv Hrow).
      destruct (IH (advance st row v)) as (st' & H1 & H2 & H3 & H4 & H5 & H6);
        [done | by apply above_advance | by apply tracks_minimum_advance
        | apply advance_stopped |].
      refine (ex_intro _ st' (conj H1 (conj H2 (conj H3 (conj H4 (conj H5 _)))))).
      by rewrite H6, advance_calls, <- app_assoc.
    + rewrite <- app_comm_cons, !(scan_skip _ _ _ Hv).
      destruct (IH st) as (st' & H1 & H2 & H3 & H4 & H5 & H6); try done.
      by refine (ex_intro _ st' (conj H1 (conj H2 (conj H3 (conj H4 (conj H5 _)))))).
Qed.

Lemma elem_of_log_of rows r v :
  (r, v) ∈ log_of rows <-> r ∈ rows /\ verdict_of r = Some v.
Proof.
  unfold calls_of. rewrite list_elem_of_omap. split.
  - intros (r' & Hin & Hv). destruct (verdict_of r') as [v'|] eqn:E; [|done].
    simpl in Hv. injection Hv as -> ->. done.
  - intros [Hin Hv]. exists r. split; [done|]. by rewrite Hv.
Qed.

Lemma accepts_iff v :
  accepts v = true <->
  (exists d, snd v = Some d /\ PyFloat.le d DISTANCE_THRESHOLD = true)
  \/ (snd v = None /\ fst v = true).
Proof.
  destruct v as [m [d|]]; simpl; split.
  - intros H. left. by exists d.
  - intros [(d' & [= <-] & H)|[? _]]; done.
  - intros H. by right.
  - intros [(d' & ? & _)|[_ H]]; done.
Qed.

Lemma accepts_is_match v : accepts v = true -> is_match (snd v) = true.
Proof. by destruct v as [m [d|]]. Qed.

(** Either no row stops the scan, or there is a first one that does. *)
Lemma first_hit rows :
  (forall r, r ∈ rows -> hits r = false)
  \/ exists pre row post,
       rows = (pre ++ row :: post)%list
       /\ (forall r, r ∈ pre -> hits r = false) /\ hits row = true.
Proof.
  induction rows as [|row rows IH].
  - left. intros r Hr. inversion Hr.
  - destruct (hits row) eqn:Hrow.
    + right. exists [], row, rows. split; [done|]. split; [|done].
      intros r Hr. inversion Hr.
    + destruct IH as [Hno|(pre & row' & post & -> & Hpre & Hhit)].
      * left. intros r [->|Hr]%elem_of_cons; [done | by apply Hno].
      * right. exists (row :: pre), row', post. split; [done|].
        split; [|done].
        intros r [->|Hr]%elem_of_cons; [done | by apply Hpre].
Qed.

Lemma scan_first_hit pre row post v :
  (forall r, r ∈ pre -> hits r = false) ->
  verdict_of row = Some v -> accepts v = true ->
  exists bd,
    scan (pre ++ row :: post) scan_init
    = ScanState (Some (row, snd v)) bd (log_of pre ++ [(row, v)]) true.
Proof.
  intros Hpre Hv Hacc.
  destruct (scan_no_hit pre (row :: post) scan_init Hpre)
    as (st' & H1 & _ & Hab & _ & _ & Hcalls);
    [apply threshold_below_initial | apply tracks_minimum_init | done |].
  rewrite H1, (scan_hit _ _ _ v Hv Hacc Hab), Hcalls. simpl. eauto.
Qed.

Lemma resolve_first_hit pre row post v :
  (forall r, r ∈ pre -> hits r = false) ->
  verdict_of row = Some v -> accepts v = true ->
  resolve DeepFace_verify fs temp_path (pre ++ row :: post)
  = Matched row (snd v).
Proof.
  intros Hpre Hv Hacc.
  destruct (scan_first_hit pre row post v Hpre Hv Hacc) as [bd Hscan].
  unfold resolve. rewrite Hscan. simpl.
  rewrite (accepts_is_match _ Hacc). by destruct pre.
Qed.

Lemma scan_all_miss rows :
  (forall r, r ∈ rows -> hits r = false) ->
  let st := scan rows scan_init in
  stopped st = false /\ calls st = log_of rows /\ tracks_minimum st
  /\ above st.
Proof.
  intros Hno.
  destruct (scan_no_hit rows [] scan_init Hno)
    as (st' & _ & H2 & Hab & Htr & Hst & Hcalls);
    [apply threshold_below_initial | apply tracks_minimum_init | done |].
  simpl. rewrite H2. by repeat split; try apply Htr.
Qed.

Lemma resolve_all_miss rows :
  (forall r, r ∈ rows -> hits r = false) ->
  exists why, resolve DeepFace_verify fs temp_path rows = NoMatch why.
Proof.
  intros Hno. destruct (scan_all_miss rows Hno) as (_ & Hcalls & [_ Hbest] & _).
  unfold resolve. destruct rows as [|r0 rows]; [by eexists|].
  destruct (best (scan (r0 :: rows) scan_init)) as [[row dist]|]; [|by eexists].
  destruct Hbest as [Hdist [m Hin]]. rewrite Hcalls in Hin.
  apply elem_of_log_of in Hin as [Hin Hv].
  specialize (Hno row Hin). unfold hit in Hno. rewrite Hv in Hno.
  rewrite Hdist in Hno |- *. simpl in *. rewrite Hno. by eexists.
Qed.

(** The two ways a scan ends. *)
Lemma scan_cases rows :
  ((forall r, r ∈ rows -> hits r = false)
   /\ stopped (scan rows scan_init) = false
   /\ calls (scan rows scan_init) = log_of rows
   /\ exists why, resolve DeepFace_verify fs temp_path rows = NoMatch why)
  \/ (exists pre row post v,
        rows = (pre ++ row :: post)%list
        /\ (forall r, r ∈ pre -> hits r = false)
        /\ verdict_of row = Some v /\ accepts v = true
        /\ stopped (scan rows scan_init) = true
        /\ best (scan rows scan_init) = Some (row, snd v)
        /\ calls (scan rows scan_init) = (log_of pre ++ [(row, v)])%list
        /\ resolve DeepFace_verify fs temp_path rows = Matched row (snd v)).
Proof.
  destruct (first_hit rows) as [Hno|(pre & row & post & Heq & Hpre & Hhit)].
  - left. destruct (scan_all_miss rows Hno) as (Hst & Hcalls & _).
    split; [done|]. split; [done|]. split; [done|].
    by apply resolve_all_miss.
  - right. unfold hit in Hhit.
    destruct (verdict_of row) as [v|] eqn:Hv; [|done].
    destruct (scan_first_hit pre row post v Hpre Hv Hhit) as [bd Hscan].
    exists pre, row, post, v. rewrite Heq, Hscan. simpl.
    repeat split; try done. by apply resolve_first_hit.
Qed.

End Resolver.

Section ResolverClaims.

Variable DeepFace_verify : filesystem -> string -> string -> verify_result.
Variable can_write : filesystem -> string -> bool.

Local Abbreviation scan := (scan_loop DeepFace_verify).
Local Abbreviation resolve' := (resolve DeepFace_verify).
Local Abbreviation verdict_of := (verdict DeepFace_verify).
Local Abbreviation hits := (hit DeepFace_verify).
Local Abbreviation log_of := (calls_of DeepFace_verify).

(** C1: the matching part of the attendance branches returns a member
    exactly when one of the matcher calls made by the scan gave a distance
    at most 0.6, or gave [true] with no distance; the same holds with "one
    of the members whose stored photo exists" in place of "one of the
    calls made", and every call made is for such a member.  In every other
    case the result is a no-match message, and then the Entry and the Exit
    branch leave the Attendance table as it was. *)
Theorem resolve_matches_iff :
  let found fs temp_path members :=
    exists row dist, resolve' fs temp_path members = Matched row dist in
  let good (v : bool * option PyFloat.t) :=
    (exists d, snd v = Some d /\ PyFloat.le d DISTANCE_THRESHOLD = true)
    \/ (snd v = None /\ fst v = true) in
  (forall fs temp_path members,
     let st := scan fs temp_path members scan_init in
     (found fs temp_path members <-> exists r v, (r, v) ∈ calls st /\ good v)
     /\ (found fs temp_path members <->
         exists r v, r ∈ members /\ verdict_of fs temp_path r = Some v
                     /\ good v)
     /\ (forall r v, (r, v) ∈ calls st ->
                     r ∈ members /\ verdict_of fs temp_path r = Some v)
     /\ (found fs temp_path members
         \/ exists why, resolve' fs temp_path members = NoMatch why))
  /\ (forall s up now fs why,
        save_probe can_write (files s) "temp_entry.jpg" up = Some fs ->
        resolve' fs "temp_entry.jpg" (members s) = NoMatch why ->
        attendance_entry DeepFace_verify can_write s (Some up) now
        = (Store (members s) (attendance s) (deleted s) fs, [why]))
  /\ (forall s up now fs why,
        save_probe can_write (files s) "temp_exit.jpg" up = Some fs ->
        resolve' fs "temp_exit.jpg" (members s) = NoMatch why ->
        attendance_exit DeepFace_verify can_write s (Some up) now
        = (Store (members s) (attendance s) (deleted s) fs, [why])).
Proof.
  intros found good.
  assert (Hgood : forall v, good v <-> accepts v = true)
    by (intros v; symmetry; apply accepts_iff).
  split; [|split].
  - intros fs temp_path members st. unfold found, st.
    destruct (scan_cases DeepFace_verify fs temp_path members)
      as [(Hno & Hst & Hcalls & why & Hwhy)
         |(pre & row & post & v & Heq & Hpre & Hv & Hacc & Hst & Hbest
           & Hcalls & Hres)].
    + assert (Hnf : ~ exists row dist,
                 resolve' fs temp_path members = Matched row dist)
        by (intros (row & dist & Hres); congruence).
      rewrite Hcalls. split; [|split; [|split]].
      * split; [done|]. intros (r & v & Hin & Hg). exfalso.
        apply elem_of_log_of in Hin as [Hin Hv].
        specialize (Hno r Hin). unfold hit in Hno. rewrite Hv in Hno.
        apply Hgood in Hg. congruence.
      * split; [done|]. intros (r & v & Hin & Hv & Hg). exfalso.
        specialize (Hno r Hin). unfold hit in Hno. rewrite Hv in Hno.
        apply Hgood in Hg. congruence.
      * intros r v Hin. by apply elem_of_log_of in Hin.
      * right. by exists why.
    + assert (Hf : exists row dist,
                 resolve' fs temp_path members = Matched row dist)
        by (by exists row, (snd v)).
      assert (Hrow : row ∈ members)
        by (rewrite Heq; apply elem_of_app; right; by left).
      rewrite Hcalls. split; [|split; [|split]].
      * split; [|done]. intros _. exists row, v. split; [|by apply Hgood].
        apply elem_of_app. right. by left.
      * split; [|done]. intros _. exists row, v.
        split; [done|]. split; [done|]. by apply Hgood.
      * intros r v' [Hin|Hin%list_elem_of_singleton]%elem_of_app.
        -- apply elem_of_log_of in Hin as [Hin Hv']. split; [|done].
           rewrite Heq. apply elem_of_app. by left.
        -- by injection Hin as -> ->.
      * by left.
  - intros s up now fs why Hprobe Hwhy.
    unfold attendance_entry. by rewrite Hprobe, Hwhy.
  - intros s up now fs why Hprobe Hwhy.
    unfold attendance_exit. by rewrite Hprobe, Hwhy.
Qed.

(** C2: the scan visits the members in listing order.  A member that comes
    first among those with an acceptable verdict (distance at most the
    threshold, or [true] without a distance) ends the scan there and is
    returned, whatever follows it in the list.  Over any prefix that does
    not end the scan, [best] holds the smallest distance seen so far with a
    member that produced it.  After a full scan that did not stop early a
    candidate is accepted only with a distance at most the threshold (and
    in fact none is).  With distances 0.8 for the first member and 0.3 for
    the second, the second is returned. *)
Theorem scan_order_early_exit (fs : filesystem) (temp_path : string) :
  (forall pre row post,
     (forall r, r ∈ pre -> hits fs temp_path r = false) ->
     hits fs temp_path row = true ->
     let st := scan fs temp_path (pre ++ row :: post) scan_init in
     exists v,
       verdict_of fs temp_path row = Some v
       /\ stopped st = true
       /\ best st = Some (row, snd v)
       /\ calls st = (log_of fs temp_path pre ++ [(row, v)])%list
       /\ resolve' fs temp_path (pre ++ row :: post) = Matched row (snd v))
  /\ (forall pre post,
        (forall r, r ∈ pre -> hits fs temp_path r = false) ->
        let st := scan fs temp_path pre scan_init in
        scan fs temp_path (pre ++ post) scan_init = scan fs temp_path post st
        /\ stopped st = false
        /\ calls st = log_of fs temp_path pre
        /\ tracks_minimum st)
  /\ (forall rows,
        let st := scan fs temp_path rows scan_init in
        stopped st = false ->
        (forall row dist,
           resolve' fs temp_path rows = Matched row dist ->
           best st = Some (row, dist)
           /\ exists d, dist = Some d
                        /\ PyFloat.le d DISTANCE_THRESHOLD = true)
        /\ exists why, resolve' fs temp_path rows = NoMatch why)
  /\ (forall m1 m2 b1 b2,
        verdict_of fs temp_path m1 = Some (b1, Some (PyFloat.Fin (8 # 10))) ->
        verdict_of fs temp_path m2 = Some (b2, Some (PyFloat.Fin (3 # 10))) ->
        best (scan fs temp_path [m1] scan_init)
        = Some (m1, Some (PyFloat.Fin (8 # 10)))
        /\ resolve' fs temp_path [m1; m2]
           = Matched m2 (Some (PyFloat.Fin (3 # 10)))).
Proof.
  split; [|split; [|split]].
  - intros pre row post Hpre Hhit st. unfold hit in Hhit.
    destruct (verdict_of fs temp_path row) as [v|] eqn:Hv; [|done].
    destruct (scan_first_hit _ _ _ pre row post v Hpre Hv Hhit) as [bd Hscan].
    exists v. unfold st. rewrite Hscan. simpl.
    repeat split; try done. by apply resolve_first_hit.
  - intros pre post Hpre st.
    destruct (scan_no_hit DeepFace_verify fs temp_path pre post scan_init Hpre)
      as (st' & H1 & H2 & _ & Htr & Hst & Hcalls);
      [apply threshold_below_initial | apply tracks_minimum_init | done |].
    unfold st. rewrite H2. by repeat split; try apply Htr.
  - intros rows st Hst. unfold st in *.
    destruct (scan_cases DeepFace_verify fs temp_path rows)
      as [(Hno & _ & _ & why & Hwhy)
         |(pre & row & post & v & _ & _ & _ & _ & Hst' & _)];
      [|congruence].
    split; [|by exists why]. intros row dist Hres. congruence.
  - intros m1 m2 b1 b2 Hv1 Hv2.
    assert (Hmiss : forall r, r ∈ [m1] -> hits fs temp_path r = false).
    { intros r ->%list_elem_of_singleton. unfold hit. by rewrite Hv1. }
    split.
    + rewrite (scan_miss _ _ _ m1 [] scan_init _ Hv1); [|done].
      reflexivity.
    + apply (resolve_first_hit _ _ _ [m1] m2 [] _ Hmiss Hv2). reflexivity.
Qed.

(** C7: with no member at all, or when no member has a stored photo path
    that is non-empty and names an existing file, the result is a no-match
    message, whatever the probe, and the matcher is never called. *)
Theorem resolve_without_photos (fs : filesystem) (temp_path : string)
    (members : list Member.t) :
  members = []
  \/ (forall m, m ∈ members ->
                Member.ImagePath m = "" \/ fs !! Member.ImagePath m = None) ->
  resolve' fs temp_path members
  = NoMatch match members with
            | [] => NoRegisteredMembers
            | _ => NoMatchingMember
            end
  /\ calls (scan fs temp_path members scan_init) = [].
Proof.
  intros [->|Hnone]; [done|].
  assert (Hverdict : forall m, m ∈ members -> verdict_of fs temp_path m = None).
  { intros m Hm. unfold verdict, os_path_exists.
    destruct (Hnone m Hm) as [-> | ->]; [done|].
    rewrite bool_decide_eq_false_2; [|by intros [? ?]].
    by rewrite orb_true_r. }
  assert (Hno : forall r, r ∈ members -> hits fs temp_path r = false)
    by (intros r Hr; unfold hit; by rewrite Hverdict).
  destruct (scan_all_miss DeepFace_verify fs temp_path members Hno)
    as (_ & Hcalls & [_ Hbest] & _).
  assert (Hlog : log_of fs temp_path members = []).
  { destruct (log_of fs temp_path members) as [|[r v] l] eqn:E; [done|].
    assert (Hin : (r, v) ∈ log_of fs temp_path members) by (rewrite E; left).
    apply elem_of_log_of in Hin as [Hin Hv]. rewrite Hverdict in Hv; done. }
  rewrite Hcalls, Hlog in *. split; [|done].
  unfold resolve. destruct members as [|m0 members]; [done|].
  destruct (best _) as [[row dist]|]; [|done].
  destruct Hbest as [_ [m Hin]]. inversion Hin.
Qed.

End ResolverClaims.

(** ** Properties of the attendance ledger *)

Lemma records_for_app idstr today (l1 l2 : list Attendance.t) :
  records_for idstr today (l1 ++ l2)
  = (records_for idstr today l1 ++ records_for idstr today l2)%list.
Proof. apply filter_app. Qed.

Lemma records_for_nil_iff idstr today (att : list Attendance.t) :
  records_for idstr today att = [] <->
  forall a, a ∈ att ->
            ~ (Attendance.ID a = idstr /\ Attendance.Date a = today).
Proof.
  unfold records_for. split.
  - intros H a Ha HP.
    by apply (filter_nil_not_elem_of _ _ a H HP).
  - intros H. destruct (filter _ att) as [|a l] eqn:E; [done|].
    assert (Ha : a ∈ filter
                   (fun a => Attendance.ID a = idstr /\ Attendance.Date a = today)
                   att) by (rewrite E; left).
    apply list_elem_of_filter in Ha as [HP Ha]. by destruct (H a Ha).
Qed.

Lemma filter_alter_length {A} (P : A -> Prop) `{!forall x, Decision (P x)}
    (f : A -> A) (i : nat) (l : list A) :
  (forall x, P (f x) <-> P x) ->
  length (filter P (alter f i l)) = length (filter P l).
Proof.
  intros Hf. revert i. induction l as [|x l IH]; intros [|i]; try done.
  - change (alter f 0 (x :: l)) with (f x :: l).
    rewrite !filter_cons. destruct (decide (P (f x))) as [Hfx|Hfx];
      destruct (decide (P x)) as [Hx|Hx]; try done.
    + destruct Hx. by apply Hf.
    + destruct Hfx. by apply Hf.
  - change (alter f (S i) (x :: l)) with (x :: alter f i l).
    rewrite !filter_cons. destruct (decide (P x)); simpl; by rewrite IH.
Qed.

Lemma filter_filter_length {A} (P Q : A -> Prop)
    `{!forall x, Decision (P x)} `{!forall x, Decision (Q x)} (l : list A) :
  length (filter P (filter Q l)) <= length (filter P l).
Proof.
  induction l as [|x l IH]; [done|].
  rewrite !filter_cons. destruct (decide (Q x)), (decide (P x)); simpl;
    rewrite ?filter_cons; repeat case_decide; simpl; try done; lia.
Qed.

Lemma filter_and_length {A} (P Q : A -> Prop)
    `{!forall x, Decision (P x)} `{!forall x, Decision (Q x)} (l : list A) :
  length (filter (fun x => P x /\ Q x) l) <= length (filter P l).
Proof.
  induction l as [|x l IH]; [done|].
  rewrite !filter_cons. repeat case_decide; simpl; try lia. tauto.
Qed.

Lemma pad2_nonempty n : PyStr.pad2 n <> "".
Proof. done. Qed.

Lemma strftime_time_nonempty now : strftime_time now <> "".
Proof. done. Qed.

Lemma markEntry_marked att row now :
  records_for (Member.ID row) (strftime_date now) att <> [] ->
  markEntry att row now = (att, EntryAlreadyMarked (Member.Name row)).
Proof.
  unfold markEntry, records_for. by destruct (filter _ att).
Qed.

Lemma markEntry_fresh att row now :
  records_for (Member.ID row) (strftime_date now) att = [] ->
  markEntry att row now
  = ((att ++ [Attendance.Row (Member.ID row) (Member.Name row)
                (strftime_date now) (strftime_time now) "" "Present"])%list,
     EntryRecorded (Member.Name row) (strftime_time now)).
Proof.
  unfold markEntry, records_for. by intros ->.
Qed.

Lemma markEntry_at_most_one att row now idstr today :
  length (records_for idstr today att) <= 1 ->
  length (records_for idstr today (fst (markEntry att row now))) <= 1.
Proof.
  intros Hle.
  destruct (records_for (Member.ID row) (strftime_date now) att) eqn:E.
  - rewrite (markEntry_fresh _ _ _ E). simpl. rewrite records_for_app.
    rewrite length_app. unfold records_for at 2. rewrite filter_cons.
    case_decide as Hk; simpl in *; [|lia].
    destruct Hk as [<- <-]. rewrite E. simpl. lia.
  - rewrite markEntry_marked; [done|]. by rewrite E.
Qed.

Lemma markExit_at_most_one att row now idstr today :
  length (records_for idstr today att) <= 1 ->
  length (records_for idstr today (fst (markExit att row now))) <= 1.
Proof.
  intros Hle. unfold markExit.
  destruct (list_find _ att) as [[idx a]|]; [|done]. simpl.
  unfold records_for. by rewrite filter_alter_length.
Qed.

Section Ledger.

Variable DeepFace_verify : filesystem -> string -> string -> verify_result.
Variable can_write : filesystem -> string -> bool.
Variable send_email_using_config : string -> string -> bool * string.

Local Abbreviation step' :=
  (step DeepFace_verify can_write send_email_using_config).
Local Abbreviation reachable' :=
  (reachable DeepFace_verify can_write send_email_using_config).

Lemma register_member_attendance s f :
  attendance (fst (register_member can_write send_email_using_config s f))
  = attendance s.
Proof.
  unfold register_member. destruct (Form.photo f); [|done].
  destruct (_ || _); [done|]. case_bool_decide; [done|].
  destruct (save_member_image _ _ _ _ _) as [fs saved].
  by destruct (send_email_using_config _ _).
Qed.

Lemma update_member_attendance s sel_id f s' msgs :
  update_member can_write send_email_using_config s sel_id f = Some (s', msgs) ->
  attendance s' = attendance s.
Proof.
  unfold update_member. destruct (members s); [by intros [= <- _]|].
  destruct (is_selected sel_id); [|by intros [= <- _]].
  destruct (selected_member _ _) as [member|]; [|done]. simpl.
  destruct (UpdateForm.new_photo f) as [ph|].
  - destruct (save_member_image _ _ _ _ _) as [fs [path|]];
      destruct (send_email_using_config _ _); by intros [= <- _].
  - destruct (send_email_using_config _ _); by intros [= <- _].
Qed.

Lemma delete_member_attendance s sel_id now s' msgs :
  delete_member send_email_using_config s sel_id now = Some (s', msgs) ->
  attendance s' = attendance s
  \/ attendance s' = filter (fun a => Attendance.ID a <> sel_id) (attendance s).
Proof.
  unfold delete_member. destruct (members s); [by intros [= <- _]; left|].
  destruct (is_selected sel_id); [|by intros [= <- _]; left].
  destruct (selected_member _ _) as [row|]; [|done]. simpl.
  destruct (send_email_using_config _ _). intros [= <- _]. by right.
Qed.

Lemma attendance_entry_attendance s uploaded now :
  let s' := fst (attendance_entry DeepFace_verify can_write s uploaded now) in
  attendance s' = attendance s
  \/ exists row, attendance s' = fst (markEntry (attendance s) row now).
Proof.
  unfold attendance_entry. destruct uploaded as [up|]; [|by left].
  destruct (save_probe _ _ _ _) as [fs|]; [|by left].
  destruct (resolve _ _ _ _) as [row dist|why]; [|by left].
  right. exists row. by destruct (markEntry _ _ _).
Qed.

Lemma attendance_exit_attendance s uploaded now :
  let s' := fst (attendance_exit DeepFace_verify can_write s uploaded now) in
  attendance s' = attendance s
  \/ exists row, attendance s' = fst (markExit (attendance s) row now).
Proof.
  unfold attendance_exit. destruct uploaded as [up|]; [|by left].
  destruct (save_probe _ _ _ _) as [fs|]; [|by left].
  destruct (resolve _ _ _ _) as [row dist|why]; [|by left].
  right. exists row. by destruct (markExit _ _ _).
Qed.

Lemma step_at_most_one s s' idstr today :
  step' s s' ->
  (forall i t, length (records_for i t (attendance s)) <= 1) ->
  length (records_for idstr today (attendance s')) <= 1.
Proof.
  intros Hstep Hinv. destruct Hstep as [f|sel_id f s' msgs H|sel_id now s' msgs H
                                       |uploaded now|uploaded now|rmtree].
  6: { simpl. lia. }
  - by rewrite register_member_attendance.
  - by rewrite (update_member_attendance _ _ _ _ _ H).
  - destruct (delete_member_attendance _ _ _ _ _ H) as [->| ->]; [done|].
    unfold records_for. etrans; [apply filter_filter_length|]. apply Hinv.
  - destruct (attendance_entry_attendance s uploaded now) as [->|[row ->]];
      [done|]. by apply markEntry_at_most_one.
  - destruct (attendance_exit_attendance s uploaded now) as [->|[row ->]];
      [done|]. by apply markExit_at_most_one.
Qed.

Lemma reachable_at_most_one s :
  reachable' s ->
  forall idstr today, length (records_for idstr today (attendance s)) <= 1.
Proof.
  induction 1 as [s Hfresh|s s' _ IH Hstep]; intros idstr today.
  - rewrite Hfresh. simpl. lia.
  - by apply (step_at_most_one s s').
Qed.

(** C3: [markEntry] answers "already marked" and changes nothing whenever
    the table holds a row for the member and the day, closed or not;
    otherwise it appends exactly one row with the current time as
    EntryTime, an empty ExitTime and Status "Present".  A second call on
    the same day fails and, in any store a run can reach, leaves exactly
    one row for the member and the day; such a store never holds more than
    one row, hence never more than one open row, for a member and a day. *)
Theorem markEntry_once :
  (forall att row now,
     (exists a, a ∈ att /\ Attendance.ID a = Member.ID row
                /\ Attendance.Date a = strftime_date now) ->
     markEntry att row now = (att, EntryAlreadyMarked (Member.Name row)))
  /\ (forall att row now,
        (forall a, a ∈ att ->
                   ~ (Attendance.ID a = Member.ID row
                      /\ Attendance.Date a = strftime_date now)) ->
        markEntry att row now
        = ((att ++ [Attendance.Row (Member.ID row) (Member.Name row)
                      (strftime_date now) (strftime_time now) "" "Present"])%list,
           EntryRecorded (Member.Name row) (strftime_time now))
        /\ strftime_time now <> "")
  /\ (forall s row now now',
        reachable' s -> strftime_date now' = strftime_date now ->
        let att1 := fst (markEntry (attendance s) row now) in
        markEntry att1 row now' = (att1, EntryAlreadyMarked (Member.Name row))
        /\ length (records_for (Member.ID row) (strftime_date now) att1) = 1)
  /\ (forall s idstr today,
        reachable' s ->
        length (records_for idstr today (attendance s)) <= 1
        /\ length (filter (is_open_for idstr today) (attendance s)) <= 1).
Proof.
  split; [|split; [|split]].
  - intros att row now (a & Ha & Hid & Hdate). apply markEntry_marked.
    intros Hnil. by apply (proj1 (records_for_nil_iff _ _ _) Hnil a Ha).
  - intros att row now Hnone. split; [|apply strftime_time_nonempty].
    by apply markEntry_fresh, records_for_nil_iff.
  - intros s row now now' Hreach Hdate att1.
    assert (Hone : length (records_for (Member.ID row) (strftime_date now) att1) = 1).
    { pose proof (reachable_at_most_one s Hreach (Member.ID row)
                    (strftime_date now)) as Hle.
      unfold att1.
      destruct (records_for (Member.ID row) (strftime_date now) (attendance s))
        as [|a l] eqn:E.
      - rewrite (markEntry_fresh _ _ _ E). simpl.
        rewrite records_for_app, E. unfold records_for.
        rewrite filter_cons. by case_decide as Hk; [|destruct Hk].
      - rewrite markEntry_marked; [|by rewrite E]. simpl. rewrite E in *.
        simpl in *. lia. }
    split; [|done]. apply markEntry_marked. rewrite Hdate.
    intros Hnil. by rewrite Hnil in Hone.
  - intros s idstr today Hreach.
    pose proof (reachable_at_most_one s Hreach idstr today) as Hle.
    split; [done|]. etrans; [|exact Hle].
    unfold is_open_for, records_for.
    apply (filter_and_length
             (fun a => Attendance.ID a = idstr /\ Attendance.Date a = today)
             (fun a => Attendance.ExitTime a = "")).
Qed.

(** C4: [markExit] succeeds exactly when the table holds an open row (empty
    ExitTime) for the member and the day, and answers "no open entry"
    without changing anything otherwise.  On success the open row of least
    index gets the current time as ExitTime and Status "Exited"; its ID,
    Name, Date and EntryTime, and every other row, stay as they were. *)
Theorem markExit_closes_first_open (att : list Attendance.t)
    (row : Member.t) (now : datetime) :
  let idstr := Member.ID row in
  let today := strftime_date now in
  let time := strftime_time now in
  ((exists a, a ∈ att /\ is_open_for idstr today a) <->
   snd (markExit att row now) = ExitRecorded (Member.Name row) time)
  /\ ((forall a, a ∈ att -> ~ is_open_for idstr today a) ->
      markExit att row now = (att, NoOpenEntry))
  /\ ((exists a, a ∈ att /\ is_open_for idstr today a) ->
      exists idx a0,
        att !! idx = Some a0
        /\ is_open_for idstr today a0
        /\ (forall j a', j < idx -> att !! j = Some a' ->
                         ~ is_open_for idstr today a')
        /\ length (fst (markExit att row now)) = length att
        /\ fst (markExit att row now) !! idx
           = Some (Attendance.Row (Attendance.ID a0) (Attendance.Name a0)
                     (Attendance.Date a0) (Attendance.EntryTime a0)
                     time "Exited")
        /\ (forall j, j <> idx -> fst (markExit att row now) !! j = att !! j)
        /\ time <> "").
Proof.
  intros idstr today time. unfold markExit.
  fold idstr today time.
  destruct (list_find (is_open_for idstr today) att) as [[idx a0]|] eqn:Hfind.
  - apply list_find_Some in Hfind as (Hidx & Hopen & Hfirst).
    assert (Hex : exists a, a ∈ att /\ is_open_for idstr today a).
    { exists a0. split; [|done]. apply list_elem_of_lookup. by exists idx. }
    split; [done|]. split.
    + intros Hnone. destruct Hex as (a & Ha & Hop). by destruct (Hnone a Ha).
    + intros _. exists idx, a0. simpl.
      split; [done|]. split; [done|]. split; [by eauto|].
      split; [apply length_alter|]. split.
      * by rewrite list_lookup_alter_eq, Hidx.
      * split; [|apply strftime_time_nonempty].
        intros j Hj. by apply list_lookup_alter_ne.
  - apply list_find_None in Hfind. rewrite Forall_forall in Hfind.
    assert (Hnex : ~ exists a, a ∈ att /\ is_open_for idstr today a).
    { intros (a & Ha & Hop). by apply (Hfind a Ha). }
    split; [split; [by intros ?|done]|]. split; [done|].
    intros Hex. by destruct Hnex.
Qed.

End Ledger.

(** ** Member lifecycle *)

Section Lifecycle.

Variable can_write : filesystem -> string -> bool.
Variable send_email_using_config : string -> string -> bool * string.

Local Abbreviation register' :=
  (register_member can_write send_email_using_config).
Local Abbreviation delete' := (delete_member send_email_using_config).

Lemma selected_member_Some (members : list Member.t) sel_id :
  (exists m, m ∈ members /\ Member.ID m = sel_id) ->
  exists row, selected_member members sel_id = Some row
              /\ row ∈ members /\ Member.ID row = sel_id.
Proof.
  intros (m & Hm & Hid). unfold selected_member.
  destruct (filter _ members) as [|row l] eqn:E.
  - by destruct (filter_nil_not_elem_of _ _ m E Hid).
  - exists row. split; [done|].
    assert (Hin : row ∈ filter (fun m => Member.ID m = sel_id) members)
      by (rewrite E; left).
    by apply list_elem_of_filter in Hin as [? ?].
Qed.

(** C6: deleting the member selected by its ID removes every Members row
    with that ID, appends the member's row with the deletion time to the
    DeletedMembers table, and removes exactly the Attendance rows with that
    ID; the other rows of both tables stay, in order. *)
Theorem delete_member_effect (s : store) (sel_id : string) (now : datetime) :
  is_selected sel_id = true ->
  (exists m, m ∈ members s /\ Member.ID m = sel_id) ->
  exists row s' msgs,
    delete' s sel_id now = Some (s', msgs)
    /\ selected_member (members s) sel_id = Some row
    /\ row ∈ members s /\ Member.ID row = sel_id
    /\ (forall m, m ∈ members s' -> Member.ID m <> sel_id)
    /\ members s' = filter (fun m => Member.ID m <> sel_id) (members s)
    /\ deleted s' = (deleted s ++ [Deleted.Row row (str_datetime now)])%list
    /\ (forall a, a ∈ attendance s' <->
                  a ∈ attendance s /\ Attendance.ID a <> sel_id)
    /\ attendance s'
       = filter (fun a => Attendance.ID a <> sel_id) (attendance s).
Proof.
  intros Hsel Hex.
  destruct (selected_member_Some _ _ Hex) as (row & Hrow & Hin & Hid).
  unfold delete_member. rewrite Hsel, Hrow. simpl.
  destruct (members s) as [|m0 ms] eqn:Hms; [inversion Hin|].
  destruct (send_email_using_config _ _) as [sent info].
  eexists row, _, _. split; [reflexivity|]. simpl.
  split; [done|]. split; [done|]. split; [done|]. split.
  { intros m Hm. by apply list_elem_of_filter in Hm as [? _]. }
  split; [done|]. split; [done|]. split; [|done].
  intros a. rewrite list_elem_of_filter. tauto.
Qed.

(** C10: registering with an explicit ID that a row of the Members table,
    as [load_members] returns it, already has changes nothing: the store,
    Members table and files included, is the one before the call, and the
    answer is "Member ID already exists" as soon as the required fields
    are filled.  Whenever that answer is given the store is unchanged. *)
Theorem register_duplicate_rejected (s : store) (f : Form.t) :
  (PyStr.strip (Form.id_input f) <> "" ->
   PyStr.strip (Form.id_input f) ∈ Member.ID <$> members s ->
   fst (register' s f) = s
   /\ (is_Some (Form.photo f) -> Form.name f <> "" -> Form.email f <> "" ->
       Form.mobile f <> "" -> register' s f = (s, [MemberIdExists])))
  /\ (MemberIdExists ∈ snd (register' s f) -> fst (register' s f) = s).
Proof.
  unfold register_member. split.
  - intros Hne Hdup. destruct (Form.photo f) as [photo|].
    + destruct (PyStr.strip (Form.id_input f)) as [|c id] eqn:Hid; [done|].
      simpl negb. cbv iota.
      rewrite bool_decide_eq_true_2 by done.
      split.
      * by destruct (_ || _).
      * intros _ Hn He Hm.
        destruct (Form.name f), (Form.email f), (Form.mobile f); done.
    + split; [done|]. by intros [? ?].
  - destruct (Form.photo f) as [photo|]; [|done].
    destruct (_ || _); [done|]. case_bool_decide; [done|].
    destruct (save_member_image _ _ _ _ _) as [fs saved].
    destruct (send_email_using_config _ _) as [sent info]. simpl.
    intros Hin. exfalso.
    destruct saved, sent; simpl in Hin;
      repeat (apply elem_of_cons in Hin as [Hin|Hin]; [discriminate|]);
      inversion Hin.
Qed.

End Lifecycle.

(** ** Integers and their decimal strings *)

Lemma parse_digits_acc (d : Decimal.uint) (p : positive) :
  PyStr.parse_digits (Z.pos p) true (NilEmpty.string_of_uint d)
  = Some (Z.pos (Pos.of_uint_acc d p)).
Proof.
  revert p. induction d; intros p; simpl; try done;
    match goal with
    | |- PyStr.parse_digits ?a _ _ = Some (Z.pos (Pos.of_uint_acc _ ?q)) =>
        replace a with (Z.pos q) by (simpl; lia); apply IHd
    end.
Qed.

Lemma parse_digits_uint (d : Decimal.uint) (prev : bool) :
  d <> Decimal.Nil \/ prev = true ->
  PyStr.parse_digits 0 prev (NilEmpty.string_of_uint d)
  = Some (Z.of_N (Pos.of_uint d)).
Proof.
  revert prev. induction d; intros prev Hd; simpl;
    try (apply (parse_digits_acc d)).
  - by destruct Hd as [?| ->].
  - apply IHd. by right.
Qed.

Lemma rstrip_uint (d : Decimal.uint) :
  PyStr.rstrip_with PyStr.int_isspace (NilEmpty.string_of_uint d)
  = NilEmpty.string_of_uint d.
Proof. induction d; simpl; try done; by rewrite IHd. Qed.

Lemma strip_with_id (sp : ascii -> bool) (c : ascii) (s : string) :
  sp c = false -> PyStr.rstrip_with sp s = s ->
  PyStr.strip_with sp (String c s) = String c s.
Proof.
  intros Hc Hs. unfold PyStr.strip_with. simpl. rewrite Hc. simpl.
  by rewrite Hc, Hs.
Qed.

Lemma int_of_uint (d : Decimal.uint) :
  d <> Decimal.Nil ->
  PyStr.int (NilEmpty.string_of_uint d) = Some (Z.of_N (Pos.of_uint d))
  /\ PyStr.int (String "-" (NilEmpty.string_of_uint d))
     = Some (- Z.of_N (Pos.of_uint d))%Z.
Proof.
  intros Hd. pose proof (parse_digits_uint d false (or_introl Hd)) as H.
  split.
  - unfold PyStr.int.
    destruct d; try done; simpl NilEmpty.string_of_uint in *;
      (rewrite strip_with_id; [exact H | done | apply rstrip_uint]).
  - unfold PyStr.int.
    rewrite strip_with_id; [|done|apply rstrip_uint]. by rewrite H.
Qed.

(** [int(str(n)) == n] *)
Lemma int_str (n : Z) : PyStr.int (PyStr.str n) = Some n.
Proof.
  destruct n as [|p|p]; [done| |]; unfold PyStr.str; simpl Z.to_int;
    pose proof (DecimalPos.Unsigned.to_uint_nonnil p) as Hnil;
    pose proof (DecimalPos.Unsigned.of_to p) as Hof;
    destruct (int_of_uint _ Hnil) as [Hpos Hneg]; rewrite Hof in *.
  - unfold NilZero.string_of_int, NilZero.string_of_uint.
    by destruct (Pos.to_uint p).
  - unfold NilZero.string_of_int, NilZero.string_of_uint.
    by destruct (Pos.to_uint p).
Qed.

Lemma str_nonempty (n : Z) : PyStr.str n <> "".
Proof. intros H. pose proof (int_str n) as Hn. by rewrite H in Hn. Qed.

Lemma fold_max_ge_init (xs : list Z) (a : Z) :
  (a <= fold_left Z.max xs a)%Z.
Proof.
  revert a. induction xs as [|z xs IH]; intros a; simpl; [lia|].
  etrans; [|apply IH]. lia.
Qed.

Lemma fold_max_ge_elem (xs : list Z) (a y : Z) :
  y ∈ xs -> (y <= fold_left Z.max xs a)%Z.
Proof.
  revert a. induction xs as [|z xs IH]; intros a Hin; simpl.
  - inversion Hin.
  - apply elem_of_cons in Hin as [->|Hin]; [|by apply IH].
    etrans; [|apply fold_max_ge_init]. lia.
Qed.

Lemma py_max_ge (x : Z) (xs : list Z) y :
  y ∈ x :: xs -> (y <= py_max x xs)%Z.
Proof.
  unfold py_max. intros [->|Hin]%elem_of_cons.
  - apply fold_max_ge_init.
  - by apply fold_max_ge_elem.
Qed.

Lemma py_max_in (x : Z) (xs : list Z) : py_max x xs ∈ x :: xs.
Proof.
  unfold py_max. revert x. induction xs as [|z xs IH]; intros x; simpl.
  - left.
  - pose proof (IH (Z.max x z)) as H.
    apply elem_of_cons in H as [Heq|Hin].
    + rewrite Heq. destruct (Z.max_spec x z) as [[_ ->]|[_ ->]].
      * right. left.
      * left.
    + right. by right.
Qed.

(** ** The ID generator and registration *)

Lemma generate_member_id_nums (members : list Member.t) :
  generate_member_id members
  = match omap (fun m => PyStr.int (Member.ID m)) members with
    | [] => "1"
    | n :: nums => PyStr.str (py_max n nums + 1)
    end.
Proof. by destruct members. Qed.

Lemma numeric_id_in_nums (members : list Member.t) m j :
  m ∈ members -> PyStr.int (Member.ID m) = Some j ->
  j ∈ omap (fun m => PyStr.int (Member.ID m)) members.
Proof. intros Hm Hj. apply list_elem_of_omap. by exists m. Qed.

Lemma generate_member_id_above (members : list Member.t) :
  exists k, PyStr.int (generate_member_id members) = Some k
            /\ forall m j, m ∈ members -> PyStr.int (Member.ID m) = Some j ->
                           (j < k)%Z.
Proof.
  rewrite generate_member_id_nums.
  destruct (omap _ members) as [|n nums] eqn:E.
  - exists 1%Z. split; [done|]. intros m j Hm Hj.
    pose proof (numeric_id_in_nums members m j Hm Hj) as Hin.
    rewrite E in Hin. inversion Hin.
  - exists (py_max n nums + 1)%Z. split; [apply int_str|].
    intros m j Hm Hj.
    pose proof (numeric_id_in_nums members m j Hm Hj) as Hin.
    rewrite E in Hin. apply py_max_ge in Hin. lia.
Qed.

Lemma generate_member_id_unused (members : list Member.t) :
  generate_member_id members ∉ Member.ID <$> members.
Proof.
  intros (m & Hid & Hm)%list_elem_of_fmap.
  destruct (generate_member_id_above members) as (k & Hk & Habove).
  rewrite Hid in Hk. specialize (Habove m k Hm Hk). lia.
Qed.

Lemma generate_member_id_nonempty (members : list Member.t) :
  generate_member_id members <> "".
Proof.
  rewrite generate_member_id_nums.
  destruct (omap _ members); [done | apply str_nonempty].
Qed.

(** ** Cells as the loader reads them *)

Lemma read_cell_na (c : string) : c ∈ STR_NA_VALUES -> read_cell c = "".
Proof. intros H. unfold read_cell. by rewrite bool_decide_eq_true_2. Qed.

Lemma read_cell_keep (c : string) : c ∉ STR_NA_VALUES -> read_cell c = c.
Proof. intros H. unfold read_cell. by rewrite bool_decide_eq_false_2. Qed.

Lemma read_cell_nonempty (c : string) : read_cell c <> "" -> read_cell c = c.
Proof. unfold read_cell. by case_bool_decide. Qed.

Lemma read_cell_idemp (c : string) : read_cell (read_cell c) = read_cell c.
Proof.
  destruct (decide (c ∈ STR_NA_VALUES)) as [Hna|Hna].
  - by rewrite (read_cell_na c Hna).
  - by rewrite !(read_cell_keep c Hna).
Qed.

Lemma read_member_idemp (m : Member.t) :
  read_member (read_member m) = read_member m.
Proof. unfold read_member. simpl. by rewrite !read_cell_idemp. Qed.

(** None of the spellings is an integer literal. *)
Lemma na_not_numeric (c : string) : c ∈ STR_NA_VALUES -> PyStr.int c = None.
Proof.
  unfold STR_NA_VALUES. intros H.
  repeat (apply elem_of_cons in H as [-> | H]; [by vm_compute|]).
  inversion H.
Qed.

Lemma read_cell_numeric (c : string) (k : Z) :
  PyStr.int c = Some k -> read_cell c = c.
Proof.
  intros Hk. apply read_cell_keep. intros Hna.
  by rewrite (na_not_numeric c Hna) in Hk.
Qed.

Lemma read_cell_generated (members : list Member.t) :
  read_cell (generate_member_id members) = generate_member_id members.
Proof.
  destruct (generate_member_id_above members) as (k & Hk & _).
  by eapply read_cell_numeric.
Qed.

Lemma digit_char_code (n : nat) :
  nat_of_ascii (PyStr.digit_char n) = 48 + n mod 10.
Proof.
  unfold PyStr.digit_char. apply nat_ascii_embedding.
  pose proof (Nat.mod_upper_bound n 10). lia.
Qed.

(** X27: what the Entry, Exit and Delete branches write of their own (the
    date, the entry and exit times, the time of deletion, the empty exit
    time and the two status words) is read back by the loaders as
    written, whatever the clock shows. *)
Theorem ledger_cells_read_back (now : datetime) :
  read_cell (strftime_date now) = strftime_date now
  /\ read_cell (strftime_time now) = strftime_time now
  /\ read_cell (str_datetime now) = str_datetime now
  /\ read_cell "" = "" /\ read_cell "Present" = "Present"
  /\ read_cell "Exited" = "Exited".
Proof.
  split; [|split; [|split; [|done]]]; apply read_cell_keep; intros H;
    unfold STR_NA_VALUES in H.
  - repeat (apply elem_of_cons in H as [H|H];
            [by apply (f_equal String.length) in H|]).
    inversion H.
  - repeat (apply elem_of_cons in H as [H|H];
            [first [ by apply (f_equal String.length) in H
                   | injection H as H _; apply (f_equal nat_of_ascii) in H;
                     rewrite digit_char_code in H; simpl in H; lia ]|]).
    inversion H.
  - unfold str_datetime in H. destruct (Nat.eqb (microsecond now) 0);
      repeat (apply elem_of_cons in H as [H|H];
              [by apply (f_equal String.length) in H|]);
      inversion H.
Qed.

Section Registration.

Variable can_write : filesystem -> string -> bool.
Variable send_email_using_config : string -> string -> bool * string.

Local Abbreviation register' :=
  (register_member can_write send_email_using_config).
Local Abbreviation save' := (save_member_image can_write).

(** What a registration that passes the checks does. *)
Lemma register_member_accepted s f photo member_id :
  Form.photo f = Some photo -> Form.name f <> "" -> Form.email f <> "" ->
  Form.mobile f <> "" ->
  member_id = (if PyStr.is_empty (PyStr.strip (Form.id_input f))
               then generate_member_id (members s)
               else PyStr.strip (Form.id_input f)) ->
  member_id ∉ Member.ID <$> members s ->
  let saved := save' (files s) photo member_id (Form.name f) in
  let row :=
    read_member
      (Member.Row member_id (Form.name f) (Form.gender f) (Form.email f)
         (Form.mobile f) (Form.membership f) (PyStr.str (Form.fee f))
         (str_date (Form.join_date f)) (default "" (snd saved))) in
  let mail := send_email_using_config (Form.email f)
                "Gym Registration Successful" in
  register' s f
  = (Store (members s ++ [row]) (attendance s) (deleted s) (fst saved),
     (match snd saved with Some _ => [] | None => [FailedToSaveImage] end
      ++ [MemberRegistered (Form.name f) member_id;
          if fst mail then EmailSent else EmailNotSent (snd mail)])%list).
Proof.
  intros Hphoto Hn He Hm -> Hfresh. unfold register_member. rewrite Hphoto.
  assert (PyStr.is_empty (Form.name f) || PyStr.is_empty (Form.email f)
          || PyStr.is_empty (Form.mobile f) = false) as ->
    by (destruct (Form.name f), (Form.email f), (Form.mobile f); done).
  match goal with
  | |- context [if negb ?b then ?x else ?y] =>
      replace (if negb b then x else y) with (if b then y else x)
        by (by destruct b)
  end.
  rewrite bool_decide_eq_false_2 by done.
  destruct (save_member_image _ _ _ _ _) as [fs saved].
  by destruct (send_email_using_config _ _) as [sent info].
Qed.

(** C8, where the code departs from it: a registration whose explicit ID is
    one of the spellings pandas reads as an absent cell ("NA", "null",
    ...) passes the duplicate test and is announced under that ID, but the
    row it writes is loaded with an empty ID.  The table then holds no row
    with the registered ID, and the same registration is accepted a second
    time, which leaves two rows with an empty ID. *)
Theorem register_member_loses_na_id (s : store) (f : Form.t)
    (photo : upload) :
  Form.photo f = Some photo -> Form.name f <> "" -> Form.email f <> "" ->
  Form.mobile f <> "" ->
  let member_id := PyStr.strip (Form.id_input f) in
  member_id <> "" -> member_id ∈ STR_NA_VALUES ->
  member_id ∉ Member.ID <$> members s ->
  let s1 := fst (register' s f) in
  let s2 := fst (register' s1 f) in
  MemberRegistered (Form.name f) member_id ∈ snd (register' s f)
  /\ (exists row, members s1 = (members s ++ [row])%list
                  /\ Member.ID row = "")
  /\ (member_id ∉ Member.ID <$> members s1)
  /\ MemberRegistered (Form.name f) member_id ∈ snd (register' s1 f)
  /\ exists row row',
       members s2 = (members s ++ [row; row'])%list
       /\ Member.ID row = "" /\ Member.ID row' = "".
Proof.
  intros Hphoto Hn He Hm member_id Hne Hna Hfresh s1 s2.
  assert (Hid : forall s0,
            member_id = (if PyStr.is_empty (PyStr.strip (Form.id_input f))
                         then generate_member_id (members s0)
                         else PyStr.strip (Form.id_input f))).
  { intros s0. fold member_id. by destruct member_id. }
  pose proof (register_member_accepted s f photo member_id Hphoto Hn He Hm
                (Hid s) Hfresh) as Hreg1.
  cbv zeta in Hreg1.
  assert (Hmem1 : exists row, members s1 = (members s ++ [row])%list
                              /\ Member.ID row = "").
  { unfold s1. rewrite Hreg1. simpl. eexists. split; [reflexivity|].
    simpl. by apply read_cell_na. }
  assert (Hfresh1 : member_id ∉ Member.ID <$> members s1).
  { destruct Hmem1 as (row & -> & Hrow). rewrite fmap_app.
    intros [Hin|Hin%list_elem_of_singleton]%elem_of_app; [done|].
    by rewrite Hrow in Hin. }
  pose proof (register_member_accepted s1 f photo member_id Hphoto Hn He Hm
                (Hid s1) Hfresh1) as Hreg2.
  cbv zeta in Hreg2.
  split; [rewrite Hreg1; apply elem_of_app; right; left|].
  split; [done|]. split; [done|].
  split; [rewrite Hreg2; apply elem_of_app; right; left|].
  destruct Hmem1 as (row & Hrows & Hrow). unfold s2. rewrite Hreg2. simpl.
  rewrite Hrows, <- app_assoc. simpl. eexists row, _.
  split; [reflexivity|]. split; [done|]. simpl. by apply read_cell_na.
Qed.

(** X25: [generate_member_id] returns "1" for a table without numeric IDs
    (an empty table included) and the string of the largest numeric ID
    plus one otherwise; the ID it returns is numeric, larger than every
    numeric ID of the table, not an ID of the table, and read back by the
    loader as it is.  A registration whose ID (the stripped input, or the
    generated one when that is blank) is not yet in the table appends
    exactly one row, whose ID is that ID as the loader reads it; when the
    loader reads the ID as it is, exactly one row has it.  The generator
    then again returns a numeric ID larger than every numeric ID
    present. *)
Theorem generate_member_id_fresh :
  (forall members,
     (forall m, m ∈ members -> PyStr.int (Member.ID m) = None) ->
     generate_member_id members = "1")
  /\ (forall members m n,
        m ∈ members -> PyStr.int (Member.ID m) = Some n ->
        (forall m' j, m' ∈ members -> PyStr.int (Member.ID m') = Some j ->
                      (j <= n)%Z) ->
        generate_member_id members = PyStr.str (n + 1))
  /\ (forall members,
        (generate_member_id members ∉ Member.ID <$> members)
        /\ read_cell (generate_member_id members) = generate_member_id members
        /\ exists k,
             PyStr.int (generate_member_id members) = Some k
             /\ forall m j, m ∈ members -> PyStr.int (Member.ID m) = Some j ->
                            (j < k)%Z)
  /\ (forall s f photo,
        Form.photo f = Some photo -> Form.name f <> "" ->
        Form.email f <> "" -> Form.mobile f <> "" ->
        let member_id :=
          if PyStr.is_empty (PyStr.strip (Form.id_input f))
          then generate_member_id (members s)
          else PyStr.strip (Form.id_input f) in
        member_id ∉ Member.ID <$> members s ->
        let s' := fst (register' s f) in
        member_id <> ""
        /\ MemberRegistered (Form.name f) member_id ∈ snd (register' s f)
        /\ (exists row, members s' = (members s ++ [row])%list
                        /\ Member.ID row = read_cell member_id)
        /\ (read_cell member_id = member_id ->
            length (filter (fun m => Member.ID m = member_id) (members s'))
            = 1)
        /\ exists k,
             PyStr.int (generate_member_id (members s')) = Some k
             /\ forall m j, m ∈ members s' ->
                            PyStr.int (Member.ID m) = Some j -> (j < k)%Z).
Proof.
  split; [|split; [|split]].
  - intros members Hnone. rewrite generate_member_id_nums.
    destruct (omap _ members) as [|n nums] eqn:E; [done|].
    assert (Hin : n ∈ omap (fun m => PyStr.int (Member.ID m)) members)
      by (rewrite E; left).
    apply list_elem_of_omap in Hin as (m & Hm & Hn).
    by rewrite (Hnone m Hm) in Hn.
  - intros members m n Hm Hn Hmax. rewrite generate_member_id_nums.
    pose proof (numeric_id_in_nums members m n Hm Hn) as Hin.
    destruct (omap _ members) as [|n0 nums] eqn:E; [inversion Hin|].
    f_equal. f_equal. apply Z.le_antisymm.
    + pose proof (py_max_in n0 nums) as Hmx. rewrite <- E in Hmx.
      apply list_elem_of_omap in Hmx as (m' & Hm' & Hj). by eapply Hmax.
    + by apply py_max_ge.
  - intros members. split; [apply generate_member_id_unused|].
    split; [apply read_cell_generated | apply generate_member_id_above].
  - intros s f photo Hphoto Hn He Hmob member_id Hfresh s'.
    assert (Hne : member_id <> "").
    { unfold member_id. destruct (PyStr.strip (Form.id_input f)) eqn:E;
        [apply generate_member_id_nonempty | done]. }
    split; [done|].
    unfold s'.
    rewrite (register_member_accepted s f photo member_id Hphoto Hn He Hmob
               eq_refl Hfresh).
    cbn [fst snd members]. split.
    { apply elem_of_app. right. left. }
    split; [by eexists|]. split.
    + intros Hread. rewrite filter_app, length_app.
      assert (filter (fun m => Member.ID m = member_id) (members s) = []) as ->.
      { destruct (filter _ (members s)) as [|m l] eqn:E; [done|].
        assert (Hin : m ∈ filter (fun m => Member.ID m = member_id) (members s))
          by (rewrite E; left).
        apply list_elem_of_filter in Hin as [Hid Hin]. destruct Hfresh.
        apply list_elem_of_fmap. by exists m. }
      rewrite filter_cons. simpl. by case_decide.
    + apply generate_member_id_above.
Qed.

End Registration.

(** ** The image helper *)

Lemma list_of_filter_chars keep s :
  list_ascii_of_string (PyStr.filter_chars keep s)
  = List.filter keep (list_ascii_of_string s).
Proof.
  induction s as [|c s IH]; simpl; [done|].
  destruct (keep c); simpl; by rewrite IH.
Qed.

Lemma list_of_lstrip sp s :
  list_ascii_of_string (PyStr.lstrip_with sp s)
  = drop_while sp (list_ascii_of_string s).
Proof.
  induction s as [|c s IH]; simpl; [done|]. by destruct (sp c).
Qed.

Lemma drop_while_snoc {A} (p : A -> bool) (l : list A) (x : A) :
  drop_while p (l ++ [x])
  = match drop_while p l with
    | [] => if p x then [] else [x]
    | _ => (drop_while p l ++ [x])%list
    end.
Proof.
  induction l as [|y l IH]; simpl; [done|]. by destruct (p y).
Qed.

Lemma list_of_rstrip sp s :
  list_ascii_of_string (PyStr.rstrip_with sp s)
  = rev (drop_while sp (rev (list_ascii_of_string s))).
Proof.
  induction s as [|c s IH]; simpl; [done|].
  rewrite drop_while_snoc.
  destruct (drop_while sp (rev (list_ascii_of_string s))) as [|d D] eqn:E.
  - simpl in IH. destruct (PyStr.rstrip_with sp s); [|done]. simpl.
    rewrite andb_true_r. by destruct (sp c).
  - destruct (PyStr.rstrip_with sp s) as [|c' r] eqn:Er.
    + simpl in IH. symmetry in IH. by apply app_nil in IH as [_ ?].
    + rewrite andb_false_r. cbn [list_ascii_of_string] in *.
      rewrite IH. by rewrite rev_app_distr.
Qed.

Lemma list_of_replace_char old new s :
  list_ascii_of_string (PyStr.replace_char old new s)
  = map (fun c => if Ascii.eqb c old then new else c) (list_ascii_of_string s).
Proof. induction s as [|c s IH]; simpl; [done|]. by rewrite IH. Qed.

Lemma safe_name_spec name :
  safe_name name
  = string_of_list_ascii (spec_safe_name (list_ascii_of_string name)).
Proof.
  rewrite <- (string_of_list_ascii_of_string (safe_name name)). f_equal.
  unfold safe_name, spec_safe_name, PyStr.strip, PyStr.strip_with.
  by rewrite list_of_replace_char, list_of_rstrip, list_of_lstrip,
    list_of_filter_chars.
Qed.

Lemma In_drop_while {A} (p : A -> bool) (l : list A) (x : A) :
  In x (drop_while p l) -> In x l.
Proof.
  induction l as [|y l IH]; simpl; [done|].
  destruct (p y); [by right; apply IH | done].
Qed.

Lemma safe_name_chars name c :
  In c (list_ascii_of_string (safe_name name)) ->
  PyStr.isalnum c = true \/ c = "_"%char.
Proof.
  rewrite safe_name_spec, list_ascii_of_string_of_list_ascii.
  unfold spec_safe_name. intros (c0 & Hc & Hin)%in_map_iff.
  apply in_rev, In_drop_while, in_rev, In_drop_while in Hin.
  apply filter_In in Hin as [_ Hkeep].
  destruct (Ascii.eqb_spec c0 " ") as [Heq|Hsp]; [by right|]. subst c0.
  apply orb_true_iff in Hkeep as [Hkeep|Hus].
  - apply orb_true_iff in Hkeep as [Hal|Hsp']; [by left | done].
  - right. by apply Ascii.eqb_eq.
Qed.

Lemma image_path_join member_id name :
  image_path member_id name
  = match member_id with
    | String "/" _ => image_filename member_id name
    | _ => "member_images/" +:+ image_filename member_id name
    end.
Proof.
  unfold image_path, image_filename. destruct member_id as [|c rest]; [done|].
  destruct c as [[] [] [] [] [] [] [] []]; reflexivity.
Qed.

Section ImageStore.

Variable can_write : filesystem -> string -> bool.
Variable send_email_using_config : string -> string -> bool * string.

Local Abbreviation save' := (save_member_image can_write).
Local Abbreviation update' :=
  (update_member can_write send_email_using_config).

(** C9: the stored photo path depends on the member ID and the name only.
    Its file name is the ID, an underscore, the sanitized name and ".jpg",
    where the sanitized name keeps the alphanumeric characters, spaces and
    underscores of the name, drops leading and trailing whitespace and
    turns spaces into underscores; the path is that file name under
    "member_images" (the file name itself when the ID starts with "/").
    Every successful save returns this path and stores the picture there,
    so a second save with the same ID and name replaces the first picture,
    and "Update Member" with a new photo writes to the path of the ID and
    the name of the form. *)
Theorem image_path_deterministic :
  (forall member_id name,
     image_filename member_id name
     = member_id +:+ "_"
       +:+ string_of_list_ascii (spec_safe_name (list_ascii_of_string name))
       +:+ ".jpg"
     /\ image_path member_id name
        = match member_id with
          | String "/" _ => image_filename member_id name
          | _ => "member_images/" +:+ image_filename member_id name
          end
     /\ forall c, In c (list_ascii_of_string (safe_name name)) ->
                  PyStr.isalnum c = true \/ c = "_"%char)
  /\ (forall fs uploaded_file member_id name fs' path,
        save' fs uploaded_file member_id name = (fs', Some path) ->
        path = image_path member_id name
        /\ exists jpeg, uploaded_file = ImageFile jpeg
                        /\ fs' = <[path := jpeg]> fs)
  /\ (forall fs first jpeg member_id name fs1 path,
        save' fs first member_id name = (fs1, Some path) ->
        can_write fs1 path = true ->
        save' fs1 (ImageFile jpeg) member_id name
        = (<[path := jpeg]> fs, Some path)
        /\ (<[path := jpeg]> fs) !! path = Some jpeg
        /\ dom (<[path := jpeg]> fs) = dom fs1)
  /\ (forall s sel_id f jpeg member,
        selected_member (members s) sel_id = Some member ->
        is_selected sel_id = true ->
        UpdateForm.new_photo f = Some (ImageFile jpeg) ->
        can_write (files s) (image_path sel_id (UpdateForm.name f)) = true ->
        exists s' msgs,
          update' s sel_id f = Some (s', msgs)
          /\ files s' = <[image_path sel_id (UpdateForm.name f) := jpeg]> (files s)
          /\ forall m, m ∈ members s' -> Member.ID m = sel_id ->
                       Member.ImagePath m
                       = image_path sel_id (UpdateForm.name f)).
Proof.
  split; [|split; [|split]].
  - intros member_id name. split; [|split].
    + unfold image_filename. by rewrite safe_name_spec.
    + apply image_path_join.
    + apply safe_name_chars.
  - intros fs up member_id name fs' path. unfold save_member_image.
    destruct (can_write _ _); [|done].
    destruct up as [jpeg|]; [|done]. intros [= <- <-]. eauto.
  - intros fs first jpeg member_id name fs1 path. unfold save_member_image.
    destruct (can_write fs _) eqn:Hw; [|done].
    destruct first as [jpeg0|]; [|done]. intros [= <- <-] ->.
    split; [by rewrite insert_insert_eq|].
    split; [by rewrite lookup_insert_eq|].
    rewrite !dom_insert_L. done.
  - intros s sel_id f jpeg member Hsel Hok Hphoto Hw.
    unfold update_member.
    destruct (members s) as [|m0 ms] eqn:Hms; [done|].
    rewrite <- Hms in *. rewrite Hsel, Hok, Hphoto. simpl.
    unfold save_member_image. rewrite Hw.
    destruct (send_email_using_config _ _) as [sent info].
    eexists _, _. split; [reflexivity|]. simpl. split; [done|].
    intros m (m' & -> & Hm')%list_elem_of_fmap. unfold update_row.
    case_bool_decide as Hid; [done|]. intros Hid'. by destruct Hid.
Qed.

End ImageStore.

(** * Worked examples on the sample gym *)

(** Bob's photo is at distance 0.3, so the scan over Ann and Bob finds a
    member. *)
Lemma resolve_matches_iff_witness :
  exists row dist,
    resolve Sample.verify Sample.fs "temp_entry.jpg" [Sample.ann; Sample.bob]
    = Matched row dist.
Proof.
  pose proof (resolve_matches_iff Sample.verify Sample.can_write) as H.
  cbv zeta in H. destruct H as [H _].
  destruct (H Sample.fs "temp_entry.jpg" [Sample.ann; Sample.bob])
    as (_ & Hiff & _).
  apply Hiff. exists Sample.bob, (true, Some (PyFloat.Fin (3 # 10))).
  split; [right; left|]. split; [vm_compute; reflexivity|].
  left. exists (PyFloat.Fin (3 # 10)). split; reflexivity.
Defined.

(** Ann at 0.8 is passed over, Bob at 0.3 is returned. *)
Lemma scan_order_early_exit_witness :
  resolve Sample.verify Sample.fs "temp_entry.jpg" [Sample.ann; Sample.bob]
  = Matched Sample.bob (Some (PyFloat.Fin (3 # 10))).
Proof.
  apply (proj2 (proj2 (proj2 (scan_order_early_exit Sample.verify Sample.fs
                                "temp_entry.jpg")))
           Sample.ann Sample.bob false true);
    vm_compute; reflexivity.
Defined.

(** Ann checks in in the morning; the evening attempt is refused and one
    row remains. *)
Lemma markEntry_once_witness :
  let att1 := fst (markEntry (attendance Sample.fresh) Sample.ann Sample.morning) in
  markEntry att1 Sample.ann Sample.evening = (att1, EntryAlreadyMarked "Ann Lee")
  /\ length (records_for "1" "2024-01-01" att1) = 1.
Proof.
  apply (proj1 (proj2 (proj2 (markEntry_once Sample.verify Sample.can_write
                                Sample.send_email)))
           Sample.fresh Sample.ann Sample.morning Sample.evening).
  - apply reach_fresh. reflexivity.
  - reflexivity.
Defined.

(** Ann's open row of the day is closed at 18:05:00. *)
Lemma markExit_closes_first_open_witness :
  exists idx a0,
    attendance Sample.store0 !! idx = Some a0
    /\ fst (markExit (attendance Sample.store0) Sample.ann Sample.evening) !! idx
       = Some (Attendance.Row "1" "Ann Lee" "2024-01-01" "09:30:00"
                 "18:05:00" "Exited").
Proof.
  destruct (proj2 (proj2 (markExit_closes_first_open
                            (attendance Sample.store0) Sample.ann
                            Sample.evening)))
    as (idx & a0 & Hidx & Hopen & Hfirst & _ & Hnew & _).
  - exists Sample.open_row. split; [right; left | vm_compute; tauto].
  - exists idx, a0. split; [exact Hidx|].
    destruct idx as [|[|idx]]; [| |discriminate Hidx].
    + injection Hidx as <-. by destruct Hopen as [[? _] _].
    + injection Hidx as <-. exact Hnew.
Defined.

(** The service says "verified" for Ann's photo, the distance 0.8 says no. *)
Lemma try_verify_faces_contract_witness :
  exists d,
    try_verify_faces Sample.verify Sample.fs "temp_entry.jpg"
      "member_images/1_Ann_Lee.jpg"
    = (PyFloat.le d DISTANCE_THRESHOLD, Some d, ServiceResult Sample.far)
    /\ PyFloat.le d DISTANCE_THRESHOLD = false.
Proof.
  destruct (proj1 (proj2 (try_verify_faces_contract Sample.verify Sample.fs
                            "temp_entry.jpg" "member_images/1_Ann_Lee.jpg")
                     Sample.far eq_refl))
    as (d & (k & v & Hk & Hv & Hd) & Hres).
  - exists "distance", (PyObj true (Some (PyFloat.Fin (8 # 10)))).
    split; [left|]. split; [reflexivity | by eexists].
  - exists d. split; [exact Hres|].
    assert (Hrun : try_verify_faces Sample.verify Sample.fs "temp_entry.jpg"
                     "member_images/1_Ann_Lee.jpg"
                   = (false, Some (PyFloat.Fin (8 # 10)),
                      ServiceResult Sample.far)) by reflexivity.
    rewrite Hrun in Hres. by injection Hres as <- _.
Defined.

(** Deleting Ann leaves Bob, archives Ann and drops her attendance row. *)
Lemma delete_member_effect_witness :
  exists s' msgs,
    delete_member Sample.send_email Sample.store0 "1" Sample.evening
    = Some (s', msgs)
    /\ members s' = [Sample.bob]
    /\ deleted s' = [Deleted.Row Sample.ann "2024-01-01 18:05:00"]
    /\ length (attendance s') = 1.
Proof.
  destruct (delete_member_effect Sample.send_email Sample.store0 "1"
              Sample.evening)
    as (row & s' & msgs & Hdel & Hrow & _ & _ & _ & Hmem & Hdeleted & _ & Hatt).
  - reflexivity.
  - exists Sample.ann. split; [left | reflexivity].
  - exists s', msgs. split; [exact Hdel|].
    injection Hrow as <-. rewrite Hmem, Hdeleted, Hatt. by vm_compute.
Defined.

(** With no file on disk nobody is matched. *)
Lemma resolve_without_photos_witness :
  resolve Sample.verify ∅ "temp_entry.jpg" [Sample.ann; Sample.bob]
  = NoMatch NoMatchingMember.
Proof.
  apply (resolve_without_photos Sample.verify ∅ "temp_entry.jpg"
           [Sample.ann; Sample.bob]).
  right. intros m Hm. right. apply lookup_empty.
Defined.

(** A registration with a blank ID gets ID 3; the next generated ID is 4. *)
Lemma generate_member_id_fresh_witness :
  let s' := fst (register_member Sample.can_write Sample.send_email
                   Sample.fresh Sample.blank_form) in
  (exists row, members s' = [Sample.ann; Sample.bob; row] /\ Member.ID row = "3")
  /\ generate_member_id (members s') = "4".
Proof.
  destruct (proj2 (proj2 (proj2 (generate_member_id_fresh Sample.can_write
                                   Sample.send_email)))
              Sample.fresh Sample.blank_form (ImageFile "picture of Cy"))
    as (_ & _ & Hrow & _);
    [reflexivity | done | done | done | |].
  { vm_compute. intros Hin.
    repeat (inversion Hin as [|? ? ? Hin']; clear Hin; rename Hin' into Hin). }
  split; [exact Hrow | reflexivity].
Defined.

(** "NA" is registered twice on the sample gym: both registrations are
    accepted and no row has the ID "NA". *)
Lemma register_member_loses_na_id_witness :
  let register := register_member Sample.can_write Sample.send_email in
  let s2 := fst (register (fst (register Sample.fresh Demo.na_form))
                   Demo.na_form) in
  exists row row',
    members s2 = [Sample.ann; Sample.bob; row; row']
    /\ Member.ID row = "" /\ Member.ID row' = "".
Proof.
  refine (proj2 (proj2 (proj2 (proj2
            (register_member_loses_na_id Sample.can_write Sample.send_email
               Sample.fresh Demo.na_form (ImageFile "picture of Cy")
               eq_refl _ _ _ _ _ _)))));
    try discriminate.
  - refine (bool_decide_unpack _ _). vm_compute. exact I.
  - refine (bool_decide_unpack _ _). vm_compute. exact I.
Defined.

(** Two saves for ID 7 and the same name go to the same file. *)
Lemma image_path_deterministic_witness :
  exists fs1,
    save_member_image Sample.can_write Sample.fs (ImageFile "first") "7"
      " Cy  Dee! "
    = (fs1, Some "member_images/7_Cy__Dee.jpg")
    /\ save_member_image Sample.can_write fs1 (ImageFile "second") "7"
         " Cy  Dee! "
       = (<["member_images/7_Cy__Dee.jpg" := "second"]> Sample.fs,
          Some "member_images/7_Cy__Dee.jpg").
Proof.
  eexists. split; [reflexivity|].
  apply (proj1 (proj2 (proj2 (image_path_deterministic Sample.can_write
                                Sample.send_email)))
           Sample.fs (ImageFile "first") "second" "7" " Cy  Dee! ");
    reflexivity.
Defined.

(** The input " 1 " names Ann's ID: nothing changes. *)
Lemma register_duplicate_rejected_witness :
  register_member Sample.can_write Sample.send_email Sample.fresh Sample.form
  = (Sample.fresh, [MemberIdExists]).
Proof.
  apply (proj1 (register_duplicate_rejected Sample.can_write Sample.send_email
                  Sample.fresh Sample.form)); try done.
  vm_compute. left.
Defined.

(** * Further properties of the matching loop *)

Lemma first_distance_first keys (res : gmap string pyobj) d :
  first_distance keys res = Some d <->
  exists pre k post v,
    keys = (pre ++ k :: post)%list
    /\ res !! k = Some v /\ py_float v = Some d
    /\ forall k' v', k' ∈ pre -> res !! k' = Some v' -> py_float v' = None.
Proof.
  induction keys as [|k0 keys IH]; simpl.
  - split; [done|]. intros (pre & k & post & v & Hk & _). by destruct pre.
  - assert (Hskip :
      (forall v, res !! k0 = Some v -> py_float v = None) ->
      first_distance keys res = Some d <->
      exists pre k post v,
        k0 :: keys = (pre ++ k :: post)%list
        /\ res !! k = Some v /\ py_float v = Some d
        /\ forall k' v', k' ∈ pre -> res !! k' = Some v' ->
                         py_float v' = None).
    { intros Hk0. rewrite IH. split.
      - intros (pre & k & post & v & -> & Hk & Hv & Hpre).
        exists (k0 :: pre), k, post, v. repeat split; try done.
        intros k' v' [->|Hin]%elem_of_cons; eauto.
      - intros (pre & k & post & v & Heq & Hk & Hv & Hpre).
        destruct pre as [|k1 pre]; simpl in Heq; injection Heq as <- ->.
        + rewrite (Hk0 v Hk) in Hv. discriminate.
        + exists pre, k, post, v. repeat split; try done.
          intros k' v' Hin. apply Hpre. by right. }
    destruct (res !! k0) as [v0|] eqn:Hk0.
    + destruct (py_float v0) as [d0|] eqn:Hv0.
      * split.
        -- intros [= ->]. exists [], k0, keys, v0. repeat split; try done.
           intros k' v' Hin. inversion Hin.
        -- intros (pre & k & post & v & Heq & Hk & Hv & Hpre).
           destruct pre as [|k1 pre]; simpl in Heq; injection Heq as <- ->.
           ++ congruence.
           ++ rewrite (Hpre k0 v0) in Hv0; [done | left | done].
      * apply Hskip. by intros v [= <-].
    + apply Hskip. by intros v [=].
Qed.

Section MatcherOrder.

Variable DeepFace_verify : filesystem -> string -> string -> verify_result.

(** X1: the distance [try_verify_faces] reports is the value of the first
    of the keys "distance", "cosine", "euclidean" (in this order) that is
    present with a value [float()] accepts; keys before it are absent or
    hold a value that does not convert. *)
Theorem try_verify_faces_key_order (fs : filesystem) (img1 img2 : string)
    (res : gmap string pyobj) (d : PyFloat.t) :
  DeepFace_verify fs img1 img2 = Returned res ->
  (snd (fst (try_verify_faces DeepFace_verify fs img1 img2)) = Some d <->
   exists pre k post v,
     ["distance"; "cosine"; "euclidean"] = (pre ++ k :: post)%list
     /\ res !! k = Some v /\ py_float v = Some d
     /\ forall k' v', k' ∈ pre -> res !! k' = Some v' -> py_float v' = None).
Proof.
  intros Hres. unfold try_verify_faces. rewrite Hres. cbn [fst snd].
  apply (first_distance_first distance_keys).
Qed.

(** The loop's test for stopping agrees with the verdict of
    [try_verify_faces]. *)
Lemma try_verify_faces_accepts fs img1 img2 :
  accepts (fst (try_verify_faces DeepFace_verify fs img1 img2))
  = fst (fst (try_verify_faces DeepFace_verify fs img1 img2)).
Proof.
  unfold try_verify_faces. destruct (DeepFace_verify fs img1 img2); [|done].
  by destruct (first_distance distance_keys res).
Qed.

End MatcherOrder.

Section ResolverExtras.

Variable DeepFace_verify : filesystem -> string -> string -> verify_result.
Variable fs : filesystem.
Variable temp_path : string.

Local Abbreviation scan := (scan_loop DeepFace_verify fs temp_path).
Local Abbreviation resolve' := (resolve DeepFace_verify fs temp_path).
Local Abbreviation verdict_of := (verdict DeepFace_verify fs temp_path).
Local Abbreviation hits := (hit DeepFace_verify fs temp_path).
Local Abbreviation verify := (try_verify_faces DeepFace_verify fs temp_path).

Lemma verdict_Some_iff row v :
  verdict_of row = Some v <->
  Member.ImagePath row <> "" /\ is_Some (fs !! Member.ImagePath row)
  /\ v = fst (verify (Member.ImagePath row)).
Proof.
  unfold verdict, os_path_exists.
  destruct (Member.ImagePath row) as [|c p]; simpl.
  - split; [done | by intros [? _]].
  - case_bool_decide as Hex; simpl.
    + split; [by intros [= <-] | by intros (_ & _ & ->)].
    + split; [done | by intros (_ & ? & _)].
Qed.

(** X2: the matching part returns a member exactly when that member is
    the first one in the list whose stored photo exists and for which
    [try_verify_faces] answers [True]; the distance returned is the one of
    that call.  It never returns a member without an existing photo or one
    the matcher rejected. *)
Theorem resolve_first_match (members : list Member.t) (row : Member.t)
    (dist : option PyFloat.t) :
  resolve' members = Matched row dist <->
  exists pre post det,
    members = (pre ++ row :: post)%list
    /\ (forall r, r ∈ pre -> hits r = false)
    /\ Member.ImagePath row <> ""
    /\ is_Some (fs !! Member.ImagePath row)
    /\ verify (Member.ImagePath row) = (true, dist, det).
Proof.
  split.
  - intros Hres.
    destruct (scan_cases DeepFace_verify fs temp_path members)
      as [(_ & _ & _ & why & Hwhy)
         |(pre & row' & post & v & Heq & Hpre & Hv & Hacc & _ & _ & _ & Hm)];
      [congruence|].
    rewrite Hres in Hm. injection Hm as <- ->.
    apply verdict_Some_iff in Hv as (Hne & Hex & ->).
    rewrite try_verify_faces_accepts in Hacc.
    destruct (verify (Member.ImagePath row)) as [[m d] det] eqn:E.
    simpl in *. subst m. by exists pre, post, det.
  - intros (pre & post & det & -> & Hpre & Hne & Hex & Hrun).
    assert (Hv : verdict_of row = Some (true, dist))
      by (apply verdict_Some_iff; by rewrite Hrun).
    apply (resolve_first_hit _ _ _ pre row post (true, dist) Hpre Hv).
    pose proof (try_verify_faces_accepts DeepFace_verify fs temp_path
                  (Member.ImagePath row)) as Hacc.
    by rewrite Hrun in Hacc.
Qed.

(** X4: when two members both have a distance within the threshold, the
    one listed first is returned, whichever distance is smaller. *)
Theorem resolve_prefers_listing_order (m1 m2 : Member.t) (b1 b2 : bool)
    (d1 d2 : PyFloat.t) :
  verdict_of m1 = Some (b1, Some d1) ->
  verdict_of m2 = Some (b2, Some d2) ->
  PyFloat.le d1 DISTANCE_THRESHOLD = true ->
  PyFloat.le d2 DISTANCE_THRESHOLD = true ->
  resolve' [m1; m2] = Matched m1 (Some d1)
  /\ resolve' [m2; m1] = Matched m2 (Some d2).
Proof.
  intros Hv1 Hv2 H1 H2.
  assert (Hnil : forall r : Member.t, r ∈ [] -> hits r = false)
    by (intros r Hr; inversion Hr).
  split.
  - by apply (resolve_first_hit _ _ _ [] m1 [m2] _ Hnil Hv1).
  - by apply (resolve_first_hit _ _ _ [] m2 [m1] _ Hnil Hv2).
Qed.

Lemma scan_same_vars rows st1 st2 :
  same_vars st1 st2 -> same_vars (scan rows st1) (scan rows st2).
Proof.
  revert st1 st2. induction rows as [|r rows IH]; intros st1 st2 Hsame; [done|].
  destruct Hsame as (Hb & Hd). simpl.
  destruct (PyStr.is_empty _ || negb _); [by apply IH|].
  destruct (try_verify_faces _ _ _ _) as [[m dist] det].
  destruct dist as [d|].
  - rewrite Hd. destruct (PyFloat.lt d (best_dist st2));
      destruct (PyFloat.le d DISTANCE_THRESHOLD); simpl;
      try (apply IH); by repeat split.
  - destruct m; [by repeat split|]. apply IH. by repeat split.
Qed.

Lemma scan_drop_failed pre row post st :
  verdict_of row = None \/ verdict_of row = Some (false, None) ->
  same_vars (scan (pre ++ row :: post) st) (scan (pre ++ post) st).
Proof.
  intros Hrow. revert st. induction pre as [|r pre IH]; intros st.
  - simpl app. destruct Hrow as [Hv|Hv].
    + rewrite (scan_skip _ _ _ _ _ _ Hv). by repeat split.
    + rewrite (scan_miss _ _ _ _ _ _ _ Hv eq_refl).
      apply scan_same_vars. by repeat split.
  - simpl. destruct (PyStr.is_empty _ || negb _); [apply IH|].
    destruct (try_verify_faces _ _ _ _) as [[m dist] det].
    destruct dist as [d|].
    + destruct (PyFloat.le d DISTANCE_THRESHOLD); [by repeat split | apply IH].
    + destruct m; [by repeat split | apply IH].
Qed.

(** X3: a member whose stored photo is missing, or for whom the
    verification service raises, does not influence the result: the scan
    goes on, and the outcome is the one of the list without that member
    (as long as that list is not empty, where the message differs). *)
Theorem resolve_ignores_failed (pre post : list Member.t) (row : Member.t) :
  Member.ImagePath row = ""
  \/ fs !! Member.ImagePath row = None
  \/ (exists e, DeepFace_verify fs temp_path (Member.ImagePath row) = Raised e) ->
  best (scan (pre ++ row :: post) scan_init)
  = best (scan (pre ++ post) scan_init)
  /\ ((pre ++ post)%list <> [] ->
      resolve' (pre ++ row :: post) = resolve' (pre ++ post)).
Proof.
  intros Hfail.
  assert (Hrow : verdict_of row = None \/ verdict_of row = Some (false, None)).
  { unfold verdict, os_path_exists, try_verify_faces.
    destruct Hfail as [-> | [Hnone|[e He]]]; [by left| |].
    - left. rewrite Hnone. rewrite bool_decide_eq_false_2 by (by intros [? ?]).
      by rewrite orb_true_r.
    - rewrite He. destruct (PyStr.is_empty _ || negb _); [by left | by right]. }
  destruct (scan_drop_failed pre row post scan_init Hrow) as (Hbest & _).
  split; [done|]. intros Hne. unfold resolve. rewrite Hbest.
  destruct (pre ++ post)%list eqn:E; [done|]. by destruct pre.
Qed.

End ResolverExtras.

(** * Further properties of the attendance ledger *)

Lemma list_find_open_fresh idstr today (att : list Attendance.t) a :
  records_for idstr today att = [] -> is_open_for idstr today a ->
  list_find (is_open_for idstr today) (att ++ [a]) = Some (length att, a).
Proof.
  intros Hnone Hopen. rewrite list_find_app_r.
  - simpl. by rewrite decide_True.
  - apply list_find_None, Forall_forall. intros x Hx [Hkey _].
    by apply (proj1 (records_for_nil_iff _ _ _) Hnone x Hx).
Qed.

Lemma markExit_after_fresh_entry (att : list Attendance.t) (row : Member.t)
    (now now' : datetime) :
  strftime_date now' = strftime_date now ->
  records_for (Member.ID row) (strftime_date now) att = [] ->
  markExit (att ++ [Attendance.Row (Member.ID row) (Member.Name row)
                      (strftime_date now) (strftime_time now) "" "Present"])
    row now'
  = ((att ++ [Attendance.Row (Member.ID row) (Member.Name row)
                (strftime_date now) (strftime_time now)
                (strftime_time now') "Exited"])%list,
     ExitRecorded (Member.Name row) (strftime_time now')).
Proof.
  intros Hdate Hnone. unfold markExit. rewrite Hdate.
  rewrite (list_find_open_fresh _ _ _ _ Hnone); [|done].
  by rewrite <- (Nat.add_0_r (length att)), alter_app_r.
Qed.

(** X5: an entry followed by an exit on the same day, for a member without
    a row that day, leaves the table with exactly one more row: the
    member's, with both times and Status "Exited". *)
Theorem entry_then_exit (att : list Attendance.t) (row : Member.t)
    (now now' : datetime) :
  strftime_date now' = strftime_date now ->
  records_for (Member.ID row) (strftime_date now) att = [] ->
  markExit (fst (markEntry att row now)) row now'
  = ((att ++ [Attendance.Row (Member.ID row) (Member.Name row)
                (strftime_date now) (strftime_time now)
                (strftime_time now') "Exited"])%list,
     ExitRecorded (Member.Name row) (strftime_time now')).
Proof.
  intros Hdate Hnone. rewrite (markEntry_fresh _ _ _ Hnone). simpl fst.
  by apply markExit_after_fresh_entry.
Qed.

Lemma two_rows_filter {A} (P : A -> Prop) `{!forall x, Decision (P x)}
    (l : list A) (i j : nat) (x y : A) :
  l !! i = Some x -> l !! j = Some y -> i <> j -> P x -> P y ->
  2 <= length (filter P l).
Proof.
  revert i j. induction l as [|z l IH]; intros i j Hi Hj Hne Hx Hy; [done|].
  assert (Hone : forall k w, l !! k = Some w -> P w -> 1 <= length (filter P l)).
  { intros k w Hk Hw.
    assert (Hin : w ∈ filter P l)
      by (apply list_elem_of_filter; split; [done|];
          apply list_elem_of_lookup; eauto).
    destruct (filter P l); [inversion Hin | simpl; lia]. }
  rewrite filter_cons. destruct i as [|i], j as [|j]; simpl in *; try done.
  - injection Hi as ->. rewrite decide_True by done. simpl.
    pose proof (Hone j y Hj Hy). lia.
  - injection Hj as ->. rewrite decide_True by done. simpl.
    pose proof (Hone i x Hi Hx). lia.
  - assert (2 <= length (filter P l)) by (eapply (IH i j); eauto).
    case_decide; simpl; lia.
Qed.

(** X6: once an exit is recorded, and the table held at most one row for
    the member and the day, a further exit that day is answered "no open
    entry" and a further entry "already marked"; neither changes the
    table. *)
Theorem closed_day_is_final (att : list Attendance.t) (row : Member.t)
    (now now' : datetime) :
  strftime_date now' = strftime_date now ->
  length (records_for (Member.ID row) (strftime_date now) att) <= 1 ->
  snd (markExit att row now)
  = ExitRecorded (Member.Name row) (strftime_time now) ->
  let att' := fst (markExit att row now) in
  markExit att' row now' = (att', NoOpenEntry)
  /\ markEntry att' row now' = (att', EntryAlreadyMarked (Member.Name row)).
Proof.
  intros Hdate Hone Hrec att'. unfold att', markExit in *.
  destruct (list_find _ att) as [[idx a0]|] eqn:Hfind; [|done]. simpl.
  apply list_find_Some in Hfind as (Hidx & [[Hid Hday] Hopen] & _).
  rewrite Hdate. split.
  - assert (Hnone : list_find (is_open_for (Member.ID row) (strftime_date now))
                      (alter (close_record (strftime_time now)) idx att)
                    = None).
    { apply list_find_None, Forall_forall. intros a Ha Hop.
      apply list_elem_of_lookup in Ha as [j Hj].
      destruct (decide (j = idx)) as [->|Hne].
      - rewrite list_lookup_alter_eq, Hidx in Hj. injection Hj as <-.
        destruct Hop as [_ Hexit]. by apply (strftime_time_nonempty now).
      - rewrite list_lookup_alter_ne in Hj by done.
        destruct Hop as [Hkey _].
        pose proof (two_rows_filter
                      (fun a => Attendance.ID a = Member.ID row
                                /\ Attendance.Date a = strftime_date now)
                      att j idx a a0 Hj Hidx Hne Hkey (conj Hid Hday)) as H2.
        unfold records_for in Hone. lia. }
    by rewrite Hnone.
  - apply markEntry_marked. rewrite Hdate. intros Hnil.
    apply (proj1 (records_for_nil_iff _ _ _) Hnil
             (close_record (strftime_time now) a0)); [|done].
    apply list_elem_of_lookup. exists idx.
    by rewrite list_lookup_alter_eq, Hidx.
Qed.

Lemma filter_alter_outside {A} (P : A -> Prop) `{!forall x, Decision (P x)}
    (f : A -> A) (l : list A) (i : nat) (x : A) :
  l !! i = Some x -> ~ P x -> ~ P (f x) ->
  filter P (alter f i l) = filter P l.
Proof.
  revert i. induction l as [|z l IH]; intros [|i] Hi Hx Hfx; try done.
  - injection Hi as ->. change (alter f 0 (x :: l)) with (f x :: l).
    rewrite !filter_cons. by rewrite !decide_False.
  - change (alter f (S i) (z :: l)) with (z :: alter f i l).
    rewrite !filter_cons. rewrite (IH i) by done. done.
Qed.

(** X7: an entry or an exit for a member on a day changes no row of
    another member or of another day: those rows stay, in order. *)
Theorem ledger_touches_one_key (att : list Attendance.t) (row : Member.t)
    (now : datetime) :
  let other (a : Attendance.t) :=
    ~ (Attendance.ID a = Member.ID row
       /\ Attendance.Date a = strftime_date now) in
  filter other (fst (markEntry att row now)) = filter other att
  /\ filter other (fst (markExit att row now)) = filter other att.
Proof.
  intros other. split.
  - unfold markEntry. destruct (filter _ att); [|done]. simpl.
    rewrite filter_app, filter_cons. unfold other at 2.
    rewrite decide_False by (intros H; by apply H). simpl.
    by rewrite app_nil_r.
  - unfold markExit.
    destruct (list_find _ att) as [[idx a0]|] eqn:Hfind; [|done]. simpl.
    apply list_find_Some in Hfind as (Hidx & [Hkey _] & _).
    apply (filter_alter_outside other _ _ _ a0 Hidx);
      intros H; by apply H.
Qed.

(** * Invariants of the store along a run *)

Section RunInvariants.

Variable DeepFace_verify : filesystem -> string -> string -> verify_result.
Variable can_write : filesystem -> string -> bool.
Variable send_email_using_config : string -> string -> bool * string.

Local Abbreviation step' :=
  (step DeepFace_verify can_write send_email_using_config).
Local Abbreviation reachable' :=
  (reachable DeepFace_verify can_write send_email_using_config).
Local Abbreviation register' :=
  (register_member can_write send_email_using_config).

Lemma register_member_cases s f :
  fst (register' s f) = s
  \/ exists row fs,
       fst (register' s f)
       = Store (members s ++ [row]) (attendance s) (deleted s) fs
       /\ read_member row = row
       /\ (Member.ID row = "" \/ Member.ID row ∉ Member.ID <$> members s).
Proof.
  unfold register_member. destruct (Form.photo f) as [photo|]; [|by left].
  destruct (_ || _); [by left|].
  set (member_id := if negb (PyStr.is_empty (PyStr.strip (Form.id_input f)))
                    then PyStr.strip (Form.id_input f)
                    else generate_member_id (members s)).
  case_bool_decide as Hdup; [by left|]. right.
  destruct (save_member_image _ _ _ _ _) as [fs saved].
  destruct (send_email_using_config _ _) as [sent info]. simpl.
  eexists _, fs. split; [reflexivity|]. split; [apply read_member_idemp|].
  simpl. destruct (decide (read_cell member_id = "")) as [|Hne]; [by left|].
  right. by rewrite (read_cell_nonempty _ Hne).
Qed.

Lemma update_member_cases s sel_id f s' msgs :
  update_member can_write send_email_using_config s sel_id f = Some (s', msgs) ->
  s' = s
  \/ exists img_path fs,
       s' = Store (update_row sel_id f img_path <$> members s)
              (attendance s) (deleted s) fs.
Proof.
  unfold update_member. destruct (members s) as [|m0 ms] eqn:Hms; [by intros [= <- _]; left|].
  rewrite <- Hms. clear Hms.
  destruct (is_selected sel_id); [|by intros [= <- _]; left].
  destruct (selected_member _ _) as [member|]; [|done]. simpl.
  destruct (UpdateForm.new_photo f) as [ph|].
  - destruct (save_member_image _ _ _ _ _) as [fs [path|]];
      destruct (send_email_using_config _ _); intros [= <- _]; right; eauto.
  - destruct (send_email_using_config _ _); intros [= <- _]; right; eauto.
Qed.

Lemma delete_member_cases s sel_id now s' msgs :
  delete_member send_email_using_config s sel_id now = Some (s', msgs) ->
  s' = s
  \/ exists row fs,
       row ∈ members s /\ Member.ID row = sel_id
       /\ s' = Store (filter (fun m => Member.ID m <> sel_id) (members s))
                 (filter (fun a => Attendance.ID a <> sel_id) (attendance s))
                 (deleted s ++ [Deleted.Row row (str_datetime now)]) fs.
Proof.
  unfold delete_member. destruct (members s) as [|m0 ms] eqn:Hms; [by intros [= <- _]; left|].
  rewrite <- Hms. clear Hms.
  destruct (is_selected sel_id); [|by intros [= <- _]; left].
  destruct (selected_member _ _) as [row|] eqn:Hrow; [|done]. simpl.
  destruct (send_email_using_config _ _). intros [= <- _]. right.
  unfold selected_member in Hrow.
  destruct (filter _ (members s)) as [|r l] eqn:E; [done|].
  injection Hrow as ->.
  assert (Hin : row ∈ filter (fun m => Member.ID m = sel_id) (members s))
    by (rewrite E; left).
  apply list_elem_of_filter in Hin as [Hid Hin]. by eexists row, _.
Qed.

Lemma resolve_Matched_member fs temp_path rows row dist :
  resolve DeepFace_verify fs temp_path rows = Matched row dist -> row ∈ rows.
Proof.
  intros Hres.
  destruct (scan_cases DeepFace_verify fs temp_path rows)
    as [(_ & _ & _ & why & Hwhy)
       |(pre & row' & post & v & -> & _ & _ & _ & _ & _ & _ & Hm)];
    [congruence|].
  rewrite Hres in Hm. injection Hm as <- _.
  apply elem_of_app. right. left.
Qed.

Lemma attendance_entry_cases s uploaded now :
  exists fs att,
    fst (attendance_entry DeepFace_verify can_write s uploaded now)
    = Store (members s) att (deleted s) fs
    /\ (fs = files s \/ exists jpeg, fs = <["temp_entry.jpg" := jpeg]> (files s))
    /\ (att = attendance s
        \/ exists row, row ∈ members s
                       /\ att = fst (markEntry (attendance s) row now)).
Proof.
  assert (Hsame : exists fs att,
            s = Store (members s) att (deleted s) fs
            /\ (fs = files s
                \/ exists jpeg, fs = <["temp_entry.jpg" := jpeg]> (files s))
            /\ (att = attendance s
                \/ exists row, row ∈ members s
                               /\ att = fst (markEntry (attendance s) row now)))
    by (exists (files s), (attendance s); destruct s; simpl; eauto).
  unfold attendance_entry. destruct uploaded as [up|]; [|done].
  destruct (save_probe _ _ _ _) as [fs|] eqn:Hprobe; [|done].
  assert (Hfs : exists jpeg, fs = <["temp_entry.jpg" := jpeg]> (files s)).
  { unfold save_probe in Hprobe. destruct up as [jpeg|]; [|done].
    destruct (can_write _ _); [|done]. injection Hprobe as <-. eauto. }
  destruct (resolve _ _ _ _) as [row dist|why] eqn:Hres.
  - apply resolve_Matched_member in Hres.
    destruct (markEntry _ _ _) as [att msg] eqn:E.
    exists fs, att. simpl. split; [done|]. split; [eauto|].
    right. exists row. by rewrite E.
  - exists fs, (attendance s). simpl. eauto.
Qed.

Lemma attendance_exit_cases s uploaded now :
  exists fs att,
    fst (attendance_exit DeepFace_verify can_write s uploaded now)
    = Store (members s) att (deleted s) fs
    /\ (fs = files s \/ exists jpeg, fs = <["temp_exit.jpg" := jpeg]> (files s))
    /\ (att = attendance s
        \/ exists row, row ∈ members s
                       /\ att = fst (markExit (attendance s) row now)).
Proof.
  assert (Hsame : exists fs att,
            s = Store (members s) att (deleted s) fs
            /\ (fs = files s
                \/ exists jpeg, fs = <["temp_exit.jpg" := jpeg]> (files s))
            /\ (att = attendance s
                \/ exists row, row ∈ members s
                               /\ att = fst (markExit (attendance s) row now)))
    by (exists (files s), (attendance s); destruct s; simpl; eauto).
  unfold attendance_exit. destruct uploaded as [up|]; [|done].
  destruct (save_probe _ _ _ _) as [fs|] eqn:Hprobe; [|done].
  assert (Hfs : exists jpeg, fs = <["temp_exit.jpg" := jpeg]> (files s)).
  { unfold save_probe in Hprobe. destruct up as [jpeg|]; [|done].
    destruct (can_write _ _); [|done]. injection Hprobe as <-. eauto. }
  destruct (resolve _ _ _ _) as [row dist|why] eqn:Hres.
  - apply resolve_Matched_member in Hres.
    destruct (markExit _ _ _) as [att msg] eqn:E.
    exists fs, att. simpl. split; [done|]. split; [eauto|].
    right. exists row. by rewrite E.
  - exists fs, (attendance s). simpl. eauto.
Qed.

Lemma markEntry_rows att row now :
  fst (markEntry att row now) = att
  \/ fst (markEntry att row now)
     = (att ++ [Attendance.Row (Member.ID row) (Member.Name row)
                  (strftime_date now) (strftime_time now) "" "Present"])%list.
Proof. unfold markEntry. destruct (filter _ att); [by right | by left]. Qed.

Lemma markExit_rows att row now :
  fst (markExit att row now) = att
  \/ exists idx,
       fst (markExit att row now)
       = alter (close_record (strftime_time now)) idx att.
Proof.
  unfold markExit. destruct (list_find _ att) as [[idx a]|]; [|by left].
  right. by exists idx.
Qed.

Lemma step_rows_ok s s' :
  step' s s' -> Forall row_ok (attendance s) -> Forall row_ok (attendance s').
Proof.
  intros Hstep Hok.
  destruct Hstep as [f|sel_id f s' msgs H|sel_id now s' msgs H
                    |uploaded now|uploaded now|rmtree].
  - by rewrite register_member_attendance.
  - by rewrite (update_member_attendance _ _ _ _ _ _ _ H).
  - destruct (delete_member_attendance _ _ _ _ _ _ H) as [->| ->]; [done|].
    apply Forall_forall. intros a [_ Ha]%list_elem_of_filter.
    by apply (proj1 (Forall_forall _ _) Hok).
  - destruct (attendance_entry_cases s uploaded now)
      as (fs & att & -> & _ & [->|(row & _ & ->)]); [done|]. simpl.
    destruct (markEntry_rows (attendance s) row now) as [->| ->]; [done|].
    apply Forall_app. split; [done|]. apply Forall_singleton.
    split; [apply strftime_time_nonempty | by left].
  - destruct (attendance_exit_cases s uploaded now)
      as (fs & att & -> & _ & [->|(row & _ & ->)]); [done|]. simpl.
    destruct (markExit_rows (attendance s) row now) as [->|[idx ->]]; [done|].
    apply Forall_alter; [done|]. intros a _ [Hentry _].
    split; [done|]. right. split; [apply strftime_time_nonempty | done].
  - constructor.
Qed.

(** X8: in every store a run reaches from an empty Attendance table, each
    Attendance row has an entry time, and is either open with Status
    "Present" or closed with Status "Exited". *)
Theorem attendance_rows_well_formed (s : store) :
  reachable' s -> Forall row_ok (attendance s).
Proof.
  induction 1 as [s Hfresh|s s' _ IH Hstep].
  - rewrite Hfresh. constructor.
  - by apply (step_rows_ok s s').
Qed.

Lemma update_row_ids sel_id f img_path (ms : list Member.t) :
  Member.ID <$> (update_row sel_id f img_path <$> ms) = Member.ID <$> ms.
Proof.
  rewrite <- list_fmap_compose. apply list_fmap_ext. intros i m _.
  unfold update_row. simpl. by case_bool_decide.
Qed.

Lemma step_known_ids s s' :
  step' s s' ->
  (forall a, a ∈ attendance s -> Attendance.ID a ∈ Member.ID <$> members s) ->
  forall a, a ∈ attendance s' -> Attendance.ID a ∈ Member.ID <$> members s'.
Proof.
  intros Hstep Hinv.
  destruct Hstep as [f|sel_id f s' msgs H|sel_id now s' msgs H
                    |uploaded now|uploaded now|rmtree].
  - destruct (register_member_cases s f) as [->|(row & fs & -> & _)]; [done|].
    simpl. intros a Ha. rewrite fmap_app. apply elem_of_app. left. by apply Hinv.
  - destruct (update_member_cases _ _ _ _ _ H) as [->|(img & fs & ->)]; [done|].
    simpl. intros a Ha. rewrite update_row_ids. by apply Hinv.
  - destruct (delete_member_cases _ _ _ _ _ H)
      as [->|(row & fs & _ & _ & ->)]; [done|].
    simpl. intros a [Hne Ha]%list_elem_of_filter.
    apply Hinv in Ha. apply list_elem_of_fmap in Ha as (m & Hid & Hm).
    apply list_elem_of_fmap. exists m. split; [done|].
    apply list_elem_of_filter. split; [congruence | done].
  - destruct (attendance_entry_cases s uploaded now)
      as (fs & att & -> & _ & [->|(row & Hrow & ->)]); [done|]. simpl.
    destruct (markEntry_rows (attendance s) row now) as [->| ->]; [done|].
    intros a [Ha|Ha%list_elem_of_singleton]%elem_of_app; [by apply Hinv|].
    subst a. simpl. apply list_elem_of_fmap. by exists row.
  - destruct (attendance_exit_cases s uploaded now)
      as (fs & att & -> & _ & [->|(row & Hrow & ->)]); [done|]. simpl.
    destruct (markExit_rows (attendance s) row now) as [->|[idx ->]]; [done|].
    intros a Ha. apply list_elem_of_lookup in Ha as [j Hj].
    rewrite list_lookup_alter in Hj. case_decide as Hij.
    + subst j. destruct (attendance s !! idx) as [a0|] eqn:Hj0; [|done].
      simpl in Hj. injection Hj as <-. simpl.
      apply Hinv, list_elem_of_lookup. by exists idx.
    + apply Hinv, list_elem_of_lookup. by exists j.
  - intros a Ha. inversion Ha.
Qed.

(** X9: in every store a run reaches from an empty Attendance table, the
    ID of each Attendance row is the ID of a current member. *)
Theorem attendance_ids_are_members (s : store) :
  reachable' s ->
  forall a, a ∈ attendance s -> Attendance.ID a ∈ Member.ID <$> members s.
Proof.
  induction 1 as [s Hfresh|s s' _ IH Hstep].
  - rewrite Hfresh. intros a Ha. inversion Ha.
  - by apply (step_known_ids s s').
Qed.

Lemma sublist_filter_mono {A} (P : A -> Prop) `{!forall x, Decision (P x)}
    (l1 l2 : list A) :
  l1 `sublist_of` l2 -> filter P l1 `sublist_of` filter P l2.
Proof.
  induction 1 as [|x l1 l2 _ IH|x l1 l2 _ IH]; [constructor| |].
  - rewrite !filter_cons. case_decide; [by constructor | done].
  - rewrite (filter_cons _ x l2). case_decide; [by constructor | done].
Qed.

Lemma step_unique_ids s s' :
  step' s s' ->
  NoDup (filter (fun i => i <> "") (Member.ID <$> members s)) ->
  NoDup (filter (fun i => i <> "") (Member.ID <$> members s')).
Proof.
  intros Hstep Hnd.
  destruct Hstep as [f|sel_id f s' msgs H|sel_id now s' msgs H
                    |uploaded now|uploaded now|rmtree].
  - destruct (register_member_cases s f)
      as [->|(row & fs & -> & _ & Hid)]; [done|].
    simpl. rewrite fmap_app, filter_app. simpl.
    rewrite filter_cons. case_decide as Hne; [|by rewrite filter_nil, app_nil_r].
    destruct Hid as [Hid|Hfresh]; [done|].
    apply NoDup_app. split; [done|]. split; [|apply NoDup_singleton].
    intros x [_ Hx]%list_elem_of_filter ->%list_elem_of_singleton. done.
  - destruct (update_member_cases _ _ _ _ _ H) as [->|(img & fs & ->)]; [done|].
    simpl. by rewrite update_row_ids.
  - destruct (delete_member_cases _ _ _ _ _ H)
      as [->|(row & fs & _ & _ & ->)]; [done|].
    simpl. eapply sublist_NoDup; [exact Hnd|].
    apply sublist_filter_mono, fmap_sublist, sublist_filter.
  - by destruct (attendance_entry_cases s uploaded now)
      as (fs & att & -> & _).
  - by destruct (attendance_exit_cases s uploaded now)
      as (fs & att & -> & _).
  - simpl. constructor.
Qed.

(** X10: along any run, the non-empty member IDs stay pairwise distinct
    once they are ("Reset DB" included).  Only the empty ID, which is what
    the loader makes of an ID such as "NA", can come to stand in two
    rows. *)
Theorem nonempty_member_ids_stay_unique (s s' : store) :
  rtc step' s s' ->
  NoDup (filter (fun i => i <> "") (Member.ID <$> members s)) ->
  NoDup (filter (fun i => i <> "") (Member.ID <$> members s')).
Proof.
  intros Hrun Hnd. induction Hrun as [s|s s1 s2 Hstep _ IH]; [done|].
  by apply IH, (step_unique_ids s s1).
Qed.

Lemma step_archive s s' :
  step' s s' ->
  deleted s' = deleted s
  \/ (exists row now,
        row ∈ members s
        /\ deleted s' = (deleted s ++ [Deleted.Row row (str_datetime now)])%list)
  \/ (members s' = [] /\ attendance s' = [] /\ deleted s' = []).
Proof.
  intros Hstep.
  destruct Hstep as [f|sel_id f s' msgs H|sel_id now s' msgs H
                    |uploaded now|uploaded now|rmtree].
  - destruct (register_member_cases s f) as [->|(row & fs & -> & _)]; by left.
  - destruct (update_member_cases _ _ _ _ _ H) as [->|(img & fs & ->)]; by left.
  - destruct (delete_member_cases _ _ _ _ _ H)
      as [->|(row & fs & Hrow & _ & ->)]; [by left|].
    right. left. by exists row, now.
  - destruct (attendance_entry_cases s uploaded now)
      as (fs & att & -> & _). by left.
  - destruct (attendance_exit_cases s uploaded now)
      as (fs & att & -> & _). by left.
  - by right; right.
Qed.

(** X11: one use of a menu branch leaves the DeletedMembers table as it
    is, appends one row to it (a deletion: the row of a current member
    with the time of deletion), or empties it together with the other two
    tables ("Reset DB").  So along any run the earlier archive is a prefix
    of the later one, unless the run passed through a store with all
    three tables empty. *)
Theorem deleted_members_append_only (s s' : store) :
  (step' s s' ->
   deleted s' = deleted s
   \/ (exists row now,
         row ∈ members s
         /\ deleted s'
            = (deleted s ++ [Deleted.Row row (str_datetime now)])%list)
   \/ (members s' = [] /\ attendance s' = [] /\ deleted s' = []))
  /\ (rtc step' s s' ->
      deleted s `prefix_of` deleted s'
      \/ exists s0, rtc step' s s0 /\ rtc step' s0 s'
                    /\ members s0 = [] /\ attendance s0 = []
                    /\ deleted s0 = []).
Proof.
  split; [apply step_archive|].
  intros Hrun. induction Hrun as [s|s s1 s2 Hstep Hrest IH]; [by left|].
  destruct IH as [IH|(s0 & Hrun1 & Hrun2 & Hempty)].
  - destruct (step_archive s s1 Hstep) as [Heq|[(row & now & _ & Heq)|Hempty]].
    + left. by rewrite <- Heq.
    + left. etrans; [|exact IH]. rewrite Heq. by apply prefix_app_r.
    + right. exists s1. split; [by apply rtc_once|]. done.
  - right. exists s0. split; [by eapply rtc_l|]. done.
Qed.

Lemma update_member_image s sel_id f s' msgs :
  update_member can_write send_email_using_config s sel_id f = Some (s', msgs) ->
  s' = s
  \/ exists img_path fs,
       s' = Store (update_row sel_id f img_path <$> members s)
              (attendance s) (deleted s) fs
       /\ (img_path = image_path sel_id (UpdateForm.name f)
           \/ exists member, member ∈ members s
                             /\ img_path = Member.ImagePath member).
Proof.
  unfold update_member.
  destruct (members s) as [|m0 ms] eqn:Hms; [by intros [= <- _]; left|].
  rewrite <- Hms. clear Hms.
  destruct (is_selected sel_id); [|by intros [= <- _]; left].
  destruct (selected_member _ _) as [member|] eqn:Hsel; [|done]. simpl.
  assert (Hin : member ∈ members s).
  { unfold selected_member in Hsel.
    apply head_Some_elem_of in Hsel.
    by apply list_elem_of_filter in Hsel as [_ ?]. }
  destruct (UpdateForm.new_photo f) as [ph|].
  - unfold save_member_image.
    destruct (can_write _ _); [destruct ph|];
      destruct (send_email_using_config _ _); intros [= <- _]; right;
      eexists _, _; (split; [reflexivity|]); eauto.
  - destruct (send_email_using_config _ _); intros [= <- _]; right;
      eexists _, _; (split; [reflexivity|]); eauto.
Qed.

(** A path [save_member_image] returns is none of the spellings. *)
Lemma read_cell_image_path (member_id name : string) :
  read_cell (image_path member_id name) = image_path member_id name.
Proof.
  apply read_cell_keep. intros H.
  assert (Hfirst : exists rest,
            image_path member_id name = String "/" rest
            \/ image_path member_id name = String "m" rest).
  { rewrite image_path_join. destruct member_id as [|c rest].
    - eexists. right. reflexivity.
    - destruct c as [[] [] [] [] [] [] [] []];
        eexists; ((left; reflexivity) || (right; reflexivity)). }
  destruct Hfirst as [rest [E|E]]; rewrite E in H; unfold STR_NA_VALUES in H;
    repeat (apply elem_of_cons in H as [H|H]; [discriminate|]);
    inversion H.
Qed.

Lemma step_loaded s s' :
  step' s s' ->
  Forall loaded (members s) -> Forall loaded (members s').
Proof.
  intros Hstep Hinv.
  destruct Hstep as [f|sel_id f s' msgs H|sel_id now s' msgs H
                    |uploaded now|uploaded now|rmtree].
  - destruct (register_member_cases s f)
      as [->|(row & fs & -> & Hrow & _)]; [done|].
    simpl. apply Forall_app. split; [done|]. by apply Forall_singleton.
  - destruct (update_member_image _ _ _ _ _ H)
      as [->|(img & fs & -> & Himg)]; [done|].
    simpl. apply Forall_fmap, Forall_forall. intros m Hm.
    pose proof (proj1 (Forall_forall _ _) Hinv m Hm) as Hl.
    simpl. unfold update_row. case_bool_decide; [|done].
    assert (Himg' : read_cell img = img).
    { destruct Himg as [->|(member & Hin & ->)];
        [apply read_cell_image_path|].
      pose proof (proj1 (Forall_forall _ _) Hinv member Hin) as Hl'.
      unfold loaded, read_member in Hl'. destruct member. simpl in *.
      by injection Hl'. }
    assert (HID : read_cell (Member.ID m) = Member.ID m).
    { unfold loaded, read_member in Hl. destruct m. simpl in *.
      by injection Hl. }
    unfold loaded, read_member. simpl.
    by rewrite !read_cell_idemp, Himg', HID.
  - destruct (delete_member_cases _ _ _ _ _ H)
      as [->|(row & fs & _ & _ & ->)]; [done|].
    simpl. apply Forall_forall. intros m [_ Hm]%list_elem_of_filter.
    by apply (proj1 (Forall_forall _ _) Hinv).
  - by destruct (attendance_entry_cases s uploaded now)
      as (fs & att & -> & _).
  - by destruct (attendance_exit_cases s uploaded now)
      as (fs & att & -> & _).
  - constructor.
Qed.

Lemma load_members_loaded (ms : list Member.t) :
  Forall loaded ms -> load_members ms = ms.
Proof.
  induction 1 as [|m ms Hm _ IH]; [done|].
  unfold load_members in *. rewrite fmap_cons. by rewrite Hm, IH.
Qed.

(** X26: the Members table of a store is a table as [load_members] returns
    it, along any run: once every row reads back as it is, this stays so,
    and loading the table a registration writes (the loaded rows and, at
    the end, the new row as typed) gives the loaded rows followed by the
    new row as read. *)
Theorem members_table_stays_loaded (s s' : store) :
  Forall loaded (members s) ->
  (rtc step' s s' -> Forall loaded (members s'))
  /\ (forall new_row,
        load_members (members s ++ [new_row])
        = (members s ++ [read_member new_row])%list).
Proof.
  intros Hinv. split.
  - intros Hrun. induction Hrun as [s|s s1 s2 Hstep _ IH]; [done|].
    by apply IH, (step_loaded s s1).
  - intros new_row. unfold load_members. rewrite fmap_app. f_equal.
    by apply load_members_loaded.
Qed.

End RunInvariants.

(** * Further properties of the member lifecycle *)

Section LifecycleExtras.

Variable can_write : filesystem -> string -> bool.
Variable send_email_using_config : string -> string -> bool * string.

Local Abbreviation register' :=
  (register_member can_write send_email_using_config).
Local Abbreviation update' :=
  (update_member can_write send_email_using_config).
Local Abbreviation delete' := (delete_member send_email_using_config).
Local Abbreviation save' := (save_member_image can_write).

(** X12: member IDs are checked against the Members table only.  After a
    member is deleted, a registration that names the same ID is accepted
    (the new row carries the ID as the loader reads it, which for an ID
    the loader returned is the ID itself), while the archive still holds a
    row with that ID. *)
Theorem deleted_id_can_be_registered_again (s : store) (sel_id : string)
    (now : datetime) (f : Form.t) :
  is_selected sel_id = true ->
  (exists m, m ∈ members s /\ Member.ID m = sel_id) ->
  PyStr.strip (Form.id_input f) = sel_id ->
  is_Some (Form.photo f) -> Form.name f <> "" -> Form.email f <> "" ->
  Form.mobile f <> "" ->
  exists s1 msgs s2 row,
    delete' s sel_id now = Some (s1, msgs)
    /\ fst (register' s1 f) = s2
    /\ members s2 = (members s1 ++ [row])%list
    /\ Member.ID row = read_cell sel_id
    /\ exists d, d ∈ deleted s2 /\ Member.ID (Deleted.member d) = sel_id.
Proof.
  intros Hsel Hex Hid [photo Hphoto] Hn He Hm.
  destruct (selected_member_Some _ _ Hex) as (row0 & Hrow0 & Hin0 & Hid0).
  assert (Hne : sel_id <> "") by (by destruct sel_id).
  assert (Hdel : exists s1 msgs,
            delete' s sel_id now = Some (s1, msgs)
            /\ members s1 = filter (fun m => Member.ID m <> sel_id) (members s)
            /\ deleted s1
               = (deleted s ++ [Deleted.Row row0 (str_datetime now)])%list).
  { unfold delete_member. rewrite Hsel, Hrow0. simpl.
    destruct (members s); [inversion Hin0|].
    destruct (send_email_using_config _ _). by eexists _, _. }
  destruct Hdel as (s1 & msgs & Hdel & Hmem & Harch).
  assert (Hfresh : sel_id ∉ Member.ID <$> members s1).
  { rewrite Hmem. intros (m & Hm' & [Hne' _]%list_elem_of_filter)%list_elem_of_fmap.
    by destruct Hne'. }
  pose proof (register_member_accepted can_write send_email_using_config s1 f photo sel_id Hphoto Hn He Hm) as Hreg.
  rewrite Hid in Hreg. destruct sel_id as [|c rest]; [done|].
  specialize (Hreg eq_refl Hfresh). cbv zeta in Hreg.
  eexists s1, msgs, _, _. split; [done|]. rewrite Hreg. simpl.
  split; [reflexivity|]. split; [reflexivity|]. split; [reflexivity|].
  exists (Deleted.Row row0 (str_datetime now)). split; [|done].
  rewrite Harch. apply elem_of_app. right. left.
Qed.

(** X15: the outcome of the mail helper never changes the data.  With any
    two mail helpers, registration, update and deletion produce the same
    store. *)
Theorem notification_never_changes_store
    (send2 : string -> string -> bool * string) (s : store) :
  (forall f, fst (register' s f) = fst (register_member can_write send2 s f))
  /\ (forall sel_id f,
        fst <$> update' s sel_id f
        = fst <$> update_member can_write send2 s sel_id f)
  /\ (forall sel_id now,
        fst <$> delete' s sel_id now
        = fst <$> delete_member send2 s sel_id now).
Proof.
  split; [|split].
  - intros f. unfold register_member. destruct (Form.photo f); [|done].
    destruct (_ || _); [done|]. case_bool_decide; [done|].
    destruct (save_member_image _ _ _ _ _).
    by destruct (send_email_using_config _ _), (send2 _ _).
  - intros sel_id f. unfold update_member. destruct (members s); [done|].
    destruct (is_selected sel_id); [|done].
    destruct (selected_member _ _); [|done]. simpl.
    destruct (UpdateForm.new_photo f);
      [destruct (save_member_image _ _ _ _ _) as [? []]|];
      by destruct (send_email_using_config _ _), (send2 _ _).
  - intros sel_id now. unfold delete_member. destruct (members s); [done|].
    destruct (is_selected sel_id); [|done].
    destruct (selected_member _ _); [|done]. simpl.
    by destruct (send_email_using_config _ _), (send2 _ _).
Qed.

(** What a deletion that passes the guards does. *)
Lemma delete_member_done s sel_id now row :
  is_selected sel_id = true ->
  selected_member (members s) sel_id = Some row ->
  exists fs msgs,
    delete' s sel_id now
    = Some (Store (filter (fun m => Member.ID m <> sel_id) (members s))
              (filter (fun a => Attendance.ID a <> sel_id) (attendance s))
              (deleted s ++ [Deleted.Row row (str_datetime now)]) fs,
            msgs).
Proof.
  intros Hsel Hrow. unfold delete_member. rewrite Hsel.
  destruct (members s) as [|m0 ms] eqn:Hms; [done|].
  rewrite <- Hms in *. rewrite Hrow. simpl.
  destruct (send_email_using_config _ _). by eexists _, _.
Qed.

(** X13: the generator does not remember deleted members.  When the
    member with the largest numeric ID [k] is deleted and the ID [k - 1]
    is still in use, the next generated ID is again the string of [k],
    the ID of the row just archived. *)
Theorem generated_id_repeats_deleted (s : store) (k : Z) (now : datetime)
    (m : Member.t) :
  (exists d, d ∈ members s /\ Member.ID d = PyStr.str k) ->
  m ∈ members s -> PyStr.int (Member.ID m) = Some (k - 1)%Z ->
  (forall m' j, m' ∈ members s -> PyStr.int (Member.ID m') = Some j ->
                (j < k)%Z \/ Member.ID m' = PyStr.str k) ->
  exists s' msgs,
    delete' s (PyStr.str k) now = Some (s', msgs)
    /\ generate_member_id (members s') = PyStr.str k
    /\ exists d, d ∈ deleted s'
                 /\ Member.ID (Deleted.member d) = PyStr.str k.
Proof.
  intros Hex Hm Hkm Hmax.
  assert (Hsel : is_selected (PyStr.str k) = true).
  { unfold is_selected. pose proof (str_nonempty k) as Hne.
    destruct (PyStr.str k) eqn:E; [done|]. simpl.
    rewrite bool_decide_eq_false_2; [done|]. intros Heq.
    pose proof (int_str k) as Hint. by rewrite E, Heq in Hint. }
  destruct (selected_member_Some _ _ Hex) as (row & Hrow & Hin & Hid).
  destruct (delete_member_done s (PyStr.str k) now row Hsel Hrow)
    as (fs & msgs & Hdel).
  eexists _, msgs. split; [exact Hdel|]. simpl. split.
  - set (rest := filter (fun m => Member.ID m <> PyStr.str k) (members s)).
    assert (Hrest : m ∈ rest).
    { apply list_elem_of_filter. split; [|done]. intros Heq.
      rewrite Heq, int_str in Hkm. injection Hkm. lia. }
    rewrite generate_member_id_nums.
    pose proof (numeric_id_in_nums rest m (k - 1) Hrest Hkm) as Hnum.
    destruct (omap _ rest) as [|n0 nums] eqn:E; [inversion Hnum|].
    f_equal. assert (py_max n0 nums = k - 1)%Z as ->; [|lia].
    apply Z.le_antisymm.
    + pose proof (py_max_in n0 nums) as Hmx. rewrite <- E in Hmx.
      apply list_elem_of_omap in Hmx as (m' & Hm' & Hj).
      apply list_elem_of_filter in Hm' as [Hne Hm'].
      destruct (Hmax m' _ Hm' Hj) as [?|?]; [lia | done].
    + by apply py_max_ge.
  - exists (Deleted.Row row (str_datetime now)). split; [|done].
    apply elem_of_app. right. left.
Qed.

(** X14: a registration never changes an existing Members row, the
    Attendance table or the DeletedMembers table, and touches no file
    other than the image path of the new ID and name. *)
Theorem register_member_frame (s : store) (f : Form.t) :
  let s' := fst (register' s f) in
  let member_id :=
    if PyStr.is_empty (PyStr.strip (Form.id_input f))
    then generate_member_id (members s)
    else PyStr.strip (Form.id_input f) in
  members s `prefix_of` members s'
  /\ attendance s' = attendance s
  /\ deleted s' = deleted s
  /\ forall p, p <> image_path member_id (Form.name f) ->
               files s' !! p = files s !! p.
Proof.
  intros s' member_id. unfold s', register_member.
  destruct (Form.photo f) as [photo|]; [|done].
  destruct (_ || _); [done|].
  match goal with
  | |- context [if negb ?b then ?x else ?y] =>
      replace (if negb b then x else y) with member_id
        by (unfold member_id; by destruct b)
  end.
  case_bool_decide; [done|]. unfold save_member_image.
  destruct (can_write _ _), photo;
    destruct (send_email_using_config _ _); simpl;
    (split; [by apply prefix_app_r|]); (split; [done|]); (split; [done|]);
    intros p Hp; by rewrite ?lookup_insert_ne.
Qed.

(** X20: when the photo cannot be saved (PIL rejects it, or the path
    cannot be written), the registration still appends the member (the
    cells of the form as the loader reads them), with an empty ImagePath,
    and warns; a rejected photo on a writable path leaves an empty file
    there. *)
Theorem register_with_failed_image (s : store) (f : Form.t) (photo : upload)
    (member_id : string) :
  Form.photo f = Some photo -> Form.name f <> "" -> Form.email f <> "" ->
  Form.mobile f <> "" ->
  member_id = (if PyStr.is_empty (PyStr.strip (Form.id_input f))
               then generate_member_id (members s)
               else PyStr.strip (Form.id_input f)) ->
  member_id ∉ Member.ID <$> members s ->
  photo = NotAnImage
  \/ can_write (files s) (image_path member_id (Form.name f)) = false ->
  let s' := fst (register' s f) in
  members s'
  = (members s
     ++ [Member.Row (read_cell member_id) (read_cell (Form.name f))
           (read_cell (Form.gender f)) (read_cell (Form.email f))
           (read_cell (Form.mobile f)) (read_cell (Form.membership f))
           (read_cell (PyStr.str (Form.fee f)))
           (read_cell (str_date (Form.join_date f))) ""])%list
  /\ FailedToSaveImage ∈ snd (register' s f)
  /\ MemberRegistered (Form.name f) member_id ∈ snd (register' s f)
  /\ files s'
     = if can_write (files s) (image_path member_id (Form.name f))
       then <[image_path member_id (Form.name f) := ""]> (files s)
       else files s.
Proof.
  intros Hphoto Hn He Hm Hid Hfresh Hfail s'. unfold s'.
  rewrite (register_member_accepted can_write send_email_using_config s f photo
             member_id Hphoto Hn He Hm Hid
             Hfresh).
  unfold save_member_image.
  destruct (can_write _ _) eqn:Hw.
  - destruct Hfail as [->|?]; [|done]. simpl.
    split; [done|]. split; [left|]. split; [right; left | done].
  - simpl. split; [done|]. split; [left|]. split; [right; left | done].
Qed.

(** X21: "Update Member" with a new photo that PIL rejects, on a writable
    path, warns and keeps the stored ImagePath, but the file at the image
    path of the ID and the form's name is left empty; when that is the
    member's stored path, the stored photo is lost. *)
Theorem update_with_rejected_photo (s : store) (sel_id : string)
    (f : UpdateForm.t) (member : Member.t) :
  selected_member (members s) sel_id = Some member ->
  is_selected sel_id = true ->
  UpdateForm.new_photo f = Some NotAnImage ->
  can_write (files s) (image_path sel_id (UpdateForm.name f)) = true ->
  exists s' msgs,
    update' s sel_id f = Some (s', msgs)
    /\ CouldNotSavePhoto ∈ msgs
    /\ (forall m, m ∈ members s' -> Member.ID m = sel_id ->
                  Member.ImagePath m = Member.ImagePath member)
    /\ files s' = <[image_path sel_id (UpdateForm.name f) := ""]> (files s)
    /\ (Member.ImagePath member = image_path sel_id (UpdateForm.name f) ->
        files s' !! Member.ImagePath member = Some "").
Proof.
  intros Hsel Hok Hphoto Hw. unfold update_member.
  destruct (members s) as [|m0 ms] eqn:Hms; [done|].
  rewrite <- Hms in *. rewrite Hsel, Hok, Hphoto. simpl.
  unfold save_member_image. rewrite Hw.
  destruct (send_email_using_config _ _) as [sent info].
  eexists _, _. split; [reflexivity|]. simpl.
  split; [left|]. split; [|split; [done|]].
  - intros m (m' & -> & Hm')%list_elem_of_fmap. unfold update_row.
    case_bool_decide as Hid; [done|]. intros Hid'. by destruct Hid.
  - intros ->. apply lookup_insert_eq.
Qed.

(** X22: an update keeps the IDs and the order of the Members rows, leaves
    every row of another ID as it is, and changes neither the Attendance
    table (whose Name column keeps the old name) nor the archive. *)
Theorem update_member_frame (s s' : store) (sel_id : string)
    (f : UpdateForm.t) (msgs : list message) :
  update' s sel_id f = Some (s', msgs) ->
  Member.ID <$> members s' = Member.ID <$> members s
  /\ (forall i m, members s !! i = Some m -> Member.ID m <> sel_id ->
                  members s' !! i = Some m)
  /\ attendance s' = attendance s
  /\ deleted s' = deleted s.
Proof.
  intros Hup.
  destruct (update_member_cases _ _ _ _ _ _ _ Hup) as [->|(img & fs & ->)];
    [done|]. simpl.
  split; [apply update_row_ids|]. split; [|done].
  intros i m Hi Hne. rewrite list_lookup_fmap, Hi. simpl.
  unfold update_row. by rewrite bool_decide_eq_false_2.
Qed.

End LifecycleExtras.

(** * Further properties of the attendance branches *)

Section AttendanceBranches.

Variable DeepFace_verify : filesystem -> string -> string -> verify_result.
Variable can_write : filesystem -> string -> bool.

Local Abbreviation entry := (attendance_entry DeepFace_verify can_write).
Local Abbreviation exit := (attendance_exit DeepFace_verify can_write).

(** X19: the two attendance branches never change the Members table or
    the archive, write no file other than their temporary picture, and
    change the Attendance table by at most one appended row (Entry) or in
    place (Exit). *)
Theorem attendance_branches_frame (s : store) (uploaded : option upload)
    (now : datetime) :
  let s1 := fst (entry s uploaded now) in
  let s2 := fst (exit s uploaded now) in
  (members s1 = members s /\ deleted s1 = deleted s
   /\ (forall p, p <> "temp_entry.jpg" -> files s1 !! p = files s !! p)
   /\ attendance s `prefix_of` attendance s1
   /\ length (attendance s1) <= S (length (attendance s)))
  /\ (members s2 = members s /\ deleted s2 = deleted s
      /\ (forall p, p <> "temp_exit.jpg" -> files s2 !! p = files s !! p)
      /\ length (attendance s2) = length (attendance s)).
Proof.
  intros s1 s2. split.
  - unfold s1.
    destruct (attendance_entry_cases DeepFace_verify can_write s uploaded now)
      as (fs & att & -> & Hfs & Hatt). simpl.
    split; [done|]. split; [done|]. split.
    { intros p Hp. destruct Hfs as [->|[jpeg ->]]; [done|].
      by rewrite lookup_insert_ne. }
    destruct Hatt as [->|(row & _ & ->)]; [split; [done | lia]|].
    destruct (markEntry_rows (attendance s) row now) as [->| ->];
      [split; [done | lia]|].
    split; [by apply prefix_app_r|]. rewrite length_app. simpl. lia.
  - unfold s2.
    destruct (attendance_exit_cases DeepFace_verify can_write s uploaded now)
      as (fs & att & -> & Hfs & Hatt). simpl.
    split; [done|]. split; [done|]. split.
    { intros p Hp. destruct Hfs as [->|[jpeg ->]]; [done|].
      by rewrite lookup_insert_ne. }
    destruct Hatt as [->|(row & _ & ->)]; [done|].
    destruct (markExit_rows (attendance s) row now) as [->|[idx ->]]; [done|].
    apply length_alter.
Qed.

(** X23: a check-in and a later check-out the same day, both matched to
    the same member who had no row that day, leave the Attendance table
    with exactly one more row, the member's, closed with both times. *)
Theorem check_in_then_out (s : store) (up1 up2 : upload)
    (now now' : datetime) (fs1 fs2 : filesystem) (row : Member.t)
    (d1 d2 : option PyFloat.t) :
  save_probe can_write (files s) "temp_entry.jpg" up1 = Some fs1 ->
  resolve DeepFace_verify fs1 "temp_entry.jpg" (members s) = Matched row d1 ->
  records_for (Member.ID row) (strftime_date now) (attendance s) = [] ->
  save_probe can_write fs1 "temp_exit.jpg" up2 = Some fs2 ->
  resolve DeepFace_verify fs2 "temp_exit.jpg" (members s) = Matched row d2 ->
  strftime_date now' = strftime_date now ->
  let s1 := fst (entry s (Some up1) now) in
  let s2 := fst (exit s1 (Some up2) now') in
  attendance s1
  = (attendance s
     ++ [Attendance.Row (Member.ID row) (Member.Name row) (strftime_date now)
           (strftime_time now) "" "Present"])%list
  /\ attendance s2
     = (attendance s
        ++ [Attendance.Row (Member.ID row) (Member.Name row)
              (strftime_date now) (strftime_time now) (strftime_time now')
              "Exited"])%list
  /\ snd (exit s1 (Some up2) now')
     = ExitRecorded (Member.Name row) (strftime_time now')
       :: match d2 with Some d => [MatchDistance d] | None => [] end.
Proof.
  intros Hp1 Hr1 Hnone Hp2 Hr2 Hdate s1 s2.
  assert (Hs1 : s1 = Store (members s)
                       (attendance s
                        ++ [Attendance.Row (Member.ID row) (Member.Name row)
                              (strftime_date now) (strftime_time now) ""
                              "Present"])
                       (deleted s) fs1).
  { unfold s1, attendance_entry. rewrite Hp1, Hr1.
    by rewrite (markEntry_fresh _ _ _ Hnone). }
  split; [by rewrite Hs1|].
  unfold s2. rewrite Hs1. unfold attendance_exit. simpl.
  rewrite Hp2, Hr2.
  rewrite (markExit_after_fresh_entry _ _ _ _ Hdate Hnone). simpl.
  split; [done|]. by destruct d2.
Qed.

End AttendanceBranches.

(** * Properties of the browsing branches *)

Lemma select_mask_sublist {A} (mask : list bool) (rows : list A) :
  select_mask mask rows `sublist_of` rows.
Proof.
  revert mask. induction rows as [|r rows IH]; intros [|b mask]; simpl;
    try apply sublist_nil_l.
  destruct b; [by apply sublist_skip | by apply sublist_cons].
Qed.

Lemma filter_contains_sublist {A}
    (contains : string -> list string -> option (list bool))
    pattern (column : A -> string) (df df' : list A) :
  filter_contains contains pattern column df = Some df' ->
  df' `sublist_of` df.
Proof.
  unfold filter_contains. destruct (PyStr.is_empty pattern).
  - by intros [= <-].
  - destruct (contains _ _) as [mask|]; [|done]. simpl. intros [= <-].
    apply select_mask_sublist.
Qed.

Lemma show_Table {A} (df rows : list A) :
  show df = Table rows -> rows = df /\ rows <> [].
Proof. destruct df; [done|]. by intros [= <-]. Qed.

Lemma filter_key_unique {A B} `{EqDecision B} (f : A -> B) (y : B)
    (l : list A) :
  NoDup (f <$> l) -> length (filter (fun x => f x = y) l) <= 1.
Proof.
  induction l as [|x l IH]; [simpl; lia|].
  rewrite fmap_cons, NoDup_cons. intros [Hx Hnd].
  rewrite filter_cons. case_decide as Hy; [|by apply IH]. simpl.
  assert (filter (fun x => f x = y) l = []) as ->; [|simpl; lia].
  destruct (filter _ l) as [|z l'] eqn:E; [done|].
  assert (Hz : z ∈ filter (fun x => f x = y) l) by (rewrite E; left).
  apply list_elem_of_filter in Hz as [Hfz Hz]. destruct Hx.
  apply list_elem_of_fmap. exists z. split; [congruence | done].
Qed.

Section BrowseProperties.

Variable contains_nocase : string -> list string -> option (list bool).
Variable contains_case : string -> list string -> option (list bool).

Local Abbreviation view_members' :=
  (view_members contains_nocase contains_case).
Local Abbreviation view_attendance' := (view_attendance contains_nocase).

(** X17: "View Members" only ever shows rows of the Members table, in
    table order and never an empty table; with an ID filter every shown
    row has that ID, and exactly one row is shown when member IDs are
    distinct.  With all filters blank the whole table is shown. *)
Theorem view_members_sound (members rows : list Member.t)
    (id_filter name_filter phone_filter : string) :
  (view_members' members id_filter name_filter phone_filter
   = Some (Table rows) ->
   rows <> [] /\ rows `sublist_of` members
   /\ (id_filter <> "" ->
       (forall m, m ∈ rows -> Member.ID m = id_filter)
       /\ (NoDup (Member.ID <$> members) -> length rows = 1)))
  /\ (members <> [] -> view_members' members "" "" "" = Some (Table members)).
Proof.
  split.
  - unfold view_members. destruct members as [|m0 ms] eqn:Hms; [done|].
    rewrite <- Hms. clear Hms m0 ms.
    set (df0 := if PyStr.is_empty id_filter then members
                else filter (fun m => Member.ID m = id_filter) members).
    destruct (filter_contains contains_nocase _ _ df0) as [df1|] eqn:H1;
      [|done]. simpl.
    destruct (filter_contains contains_case _ _ df1) as [df2|] eqn:H2;
      [|done]. simpl.
    intros [= Hshow]. apply show_Table in Hshow as [-> Hne].
    apply filter_contains_sublist in H1, H2.
    assert (Hsub : df2 `sublist_of` df0) by (by etrans).
    split; [done|]. split.
    + etrans; [exact Hsub|]. unfold df0.
      destruct (PyStr.is_empty id_filter); [done | apply sublist_filter].
    + intros Hid. assert (PyStr.is_empty id_filter = false) as Hf
        by (by destruct id_filter).
      unfold df0 in Hsub. rewrite Hf in Hsub. split.
      * intros m Hm. eapply elem_of_sublist in Hm; [|exact Hsub].
        by apply list_elem_of_filter in Hm as [? _].
      * intros Hnd. apply sublist_length in Hsub.
        pose proof (filter_key_unique Member.ID id_filter members Hnd).
        destruct df2; [done | simpl in *; lia].
  - intros Hne. unfold view_members. by destruct members.
Qed.

(** X18: "View Attendance" only ever shows rows of the Attendance table,
    in table order.  In a store a run reaches from an empty Attendance
    table, filtering by a date and an ID shows exactly one row, if any. *)
Theorem view_attendance_sound
    (DeepFace_verify : filesystem -> string -> string -> verify_result)
    (can_write : filesystem -> string -> bool)
    (send_email_using_config : string -> string -> bool * string)
    (s : store) (rows : list Attendance.t)
    (date_filter : option (nat * nat * nat)) (id_filter name_filter : string) :
  view_attendance' (attendance s) date_filter id_filter name_filter
  = Some (Table rows) ->
  rows <> [] /\ rows `sublist_of` attendance s
  /\ (reachable DeepFace_verify can_write send_email_using_config s ->
      is_Some date_filter -> id_filter <> "" -> length rows = 1).
Proof.
  unfold view_attendance.
  destruct (attendance s) as [|a0 att] eqn:Hatt; [done|].
  rewrite <- Hatt. clear Hatt a0 att.
  set (df0 := match date_filter with
              | Some d => filter (fun a => Attendance.Date a = str_date d)
                            (attendance s)
              | None => attendance s
              end).
  set (df1 := if PyStr.is_empty id_filter then df0
              else filter (fun a => Attendance.ID a = id_filter) df0).
  destruct (filter_contains contains_nocase _ _ df1) as [df2|] eqn:H2;
    [|done]. simpl.
  intros [= Hshow]. apply show_Table in Hshow as [-> Hne].
  apply filter_contains_sublist in H2.
  split; [done|]. split.
  - etrans; [exact H2|]. unfold df1, df0.
    destruct (PyStr.is_empty id_filter), date_filter;
      try done; try apply sublist_filter.
    etrans; apply sublist_filter.
  - intros Hreach [d ->] Hid.
    assert (PyStr.is_empty id_filter = false) as Hf by (by destruct id_filter).
    unfold df1, df0 in H2. rewrite Hf, list_filter_filter in H2.
    apply sublist_length in H2.
    pose proof (reachable_at_most_one _ _ _ s Hreach id_filter (str_date d))
      as Hone.
    unfold records_for in Hone. destruct df2; [done | simpl in *; lia].
Qed.

End BrowseProperties.

(** * Properties of the mail settings *)

(** X16: after "Save SMTP Settings" with both fields filled, the mail
    helper talks to the transport with exactly these credentials and
    reports its outcome; a save with a blank field changes nothing; and
    while a credential is missing or empty the helper answers "SMTP not
    configured" whatever the transport would do. *)
Theorem smtp_settings_round_trip (file : Mail.config_file)
    (admin_email admin_pass : string)
    (smtp : string -> string -> string -> string -> option string)
    (to_email subject : string) :
  (admin_email <> "" -> admin_pass <> "" ->
   Mail.send_email_using_config
     (fst (Mail.save_smtp_settings file admin_email admin_pass))
     smtp to_email subject
   = match smtp admin_email admin_pass to_email subject with
     | None => (true, "Email sent")
     | Some e => (false, e)
     end)
  /\ (admin_email = "" \/ admin_pass = "" ->
      Mail.save_smtp_settings file admin_email admin_pass = (file, false))
  /\ (default "" (Mail.load_config file !! "admin_email") = ""
      \/ default "" (Mail.load_config file !! "admin_pass") = "" ->
      Mail.send_email_using_config file smtp to_email subject
      = (false, "SMTP not configured. Set in sidebar.")).
Proof.
  split; [|split].
  - intros He Hp. unfold Mail.save_smtp_settings.
    destruct admin_email as [|c1 e]; [done|].
    destruct admin_pass as [|c2 p]; [done|]. simpl.
    unfold Mail.send_email_using_config.
    change (Mail.load_config (Mail.save_config ?m)) with m.
    rewrite lookup_insert_eq, lookup_insert_ne by done.
    by rewrite lookup_singleton_eq.
  - unfold Mail.save_smtp_settings. intros [-> | ->]; [done|].
    by rewrite orb_true_r.
  - unfold Mail.send_email_using_config. intros [-> | ->]; [done|].
    by rewrite orb_true_r.
Qed.

(** * A further property of the image helper *)

Lemma list_of_append (a b : string) :
  list_ascii_of_string (a +:+ b)
  = (list_ascii_of_string a ++ list_ascii_of_string b)%list.
Proof. induction a as [|c a IH]; simpl; [done|]. by rewrite IH. Qed.

Lemma slash_not_alnum : PyStr.isalnum "/" = false.
Proof. reflexivity. Qed.

(** X24: the member's name cannot move the photo out of the image
    directory.  When the ID holds no "/", the image path is
    "member_images/" followed by a file name without any "/", whatever the
    name is. *)
Theorem name_cannot_leave_img_dir (member_id name : string) :
  ~ In "/"%char (list_ascii_of_string member_id) ->
  image_path member_id name = "member_images/" +:+ image_filename member_id name
  /\ ~ In "/"%char (list_ascii_of_string (image_filename member_id name)).
Proof.
  intros Hid. split.
  - rewrite image_path_join. destruct member_id as [|c rest]; [done|].
    destruct (Ascii.eqb_spec c "/") as [->|Hc]; [destruct Hid; by left|].
    destruct c as [[] [] [] [] [] [] [] []]; try done.
  - unfold image_filename. rewrite !list_of_append.
    rewrite !in_app_iff. intros [H|[H|[H|H]]].
    + done.
    + simpl in H. by destruct H.
    + apply safe_name_chars in H as [H|H]; [|done].
      by rewrite slash_not_alnum in H.
    + simpl in H. intuition discriminate.
Qed.

(** * Worked examples for the further properties *)

(** Ann's result holds "distance", the first key: 0.8 is reported. *)
Lemma try_verify_faces_key_order_witness :
  snd (fst (try_verify_faces Sample.verify Sample.fs "temp_entry.jpg"
              "member_images/1_Ann_Lee.jpg"))
  = Some (PyFloat.Fin (8 # 10)).
Proof.
  apply (proj2 (try_verify_faces_key_order Sample.verify Sample.fs
                  "temp_entry.jpg" "member_images/1_Ann_Lee.jpg" Sample.far
                  (PyFloat.Fin (8 # 10)) eq_refl)).
  exists [], "distance", ["cosine"; "euclidean"],
    (PyObj true (Some (PyFloat.Fin (8 # 10)))).
  split; [reflexivity|]. split; [reflexivity|]. split; [reflexivity|].
  intros k v Hk. inversion Hk.
Defined.

(** Bob is the first member the matcher accepts. *)
Lemma resolve_first_match_witness :
  resolve Sample.verify Sample.fs "temp_entry.jpg" [Sample.ann; Sample.bob]
  = Matched Sample.bob (Some (PyFloat.Fin (3 # 10))).
Proof.
  apply (proj2 (resolve_first_match Sample.verify Sample.fs "temp_entry.jpg"
                  [Sample.ann; Sample.bob] Sample.bob
                  (Some (PyFloat.Fin (3 # 10))))).
  exists [Sample.ann], [], (ServiceResult Sample.near).
  split; [reflexivity|]. split.
  { intros r ->%list_elem_of_singleton. reflexivity. }
  split; [done|]. split; [by eexists | reflexivity].
Defined.

(** Cy's photo is missing: the result is the one for Ann and Bob alone. *)
Lemma resolve_ignores_failed_witness :
  resolve Sample.verify Sample.fs "temp_entry.jpg"
    [Demo.cy; Sample.ann; Sample.bob]
  = resolve Sample.verify Sample.fs "temp_entry.jpg" [Sample.ann; Sample.bob].
Proof.
  apply (proj2 (resolve_ignores_failed Sample.verify Sample.fs "temp_entry.jpg"
                  [] [Sample.ann; Sample.bob] Demo.cy
                  (or_intror (or_introl eq_refl)))).
  done.
Defined.

(** Ann at 0.5 wins when listed first although Bob is at 0.3. *)
Lemma resolve_prefers_listing_order_witness :
  resolve Demo.verify_both Sample.fs "temp_entry.jpg" [Sample.ann; Sample.bob]
  = Matched Sample.ann (Some (PyFloat.Fin (5 # 10)))
  /\ resolve Demo.verify_both Sample.fs "temp_entry.jpg"
       [Sample.bob; Sample.ann]
     = Matched Sample.bob (Some (PyFloat.Fin (3 # 10))).
Proof.
  apply (resolve_prefers_listing_order Demo.verify_both Sample.fs
           "temp_entry.jpg" Sample.ann Sample.bob true true);
    reflexivity.
Defined.

(** Ann's day: in at 09:30:00, out at 18:05:00, one row. *)
Lemma entry_then_exit_witness :
  markExit (fst (markEntry [] Sample.ann Sample.morning)) Sample.ann
    Sample.evening
  = ([Attendance.Row "1" "Ann Lee" "2024-01-01" "09:30:00" "18:05:00"
        "Exited"],
     ExitRecorded "Ann Lee" "18:05:00").
Proof.
  apply (entry_then_exit [] Sample.ann Sample.morning Sample.evening);
    reflexivity.
Defined.

(** After Ann's exit, a second exit that day finds no open entry. *)
Lemma closed_day_is_final_witness :
  let att' := fst (markExit [Sample.open_row] Sample.ann Sample.evening) in
  markExit att' Sample.ann Sample.evening = (att', NoOpenEntry)
  /\ markEntry att' Sample.ann Sample.evening
     = (att', EntryAlreadyMarked "Ann Lee").
Proof.
  apply (closed_day_is_final [Sample.open_row] Sample.ann Sample.evening
           Sample.evening eq_refl).
  - vm_compute. lia.
  - reflexivity.
Defined.

(** Bob's row of the day before is untouched by Ann's exit. *)
Lemma ledger_touches_one_key_witness :
  filter (fun a => ~ (Attendance.ID a = "1"
                      /\ Attendance.Date a = "2024-01-01"))
    (fst (markExit (attendance Sample.store0) Sample.ann Sample.evening))
  = filter (fun a => ~ (Attendance.ID a = "1"
                        /\ Attendance.Date a = "2024-01-01"))
      (attendance Sample.store0).
Proof.
  exact (proj2 (ledger_touches_one_key (attendance Sample.store0) Sample.ann
                  Sample.evening)).
Defined.

Lemma demo_after_entry_reachable :
  reachable Sample.verify Sample.can_write Sample.send_email Demo.after_entry.
Proof.
  apply (reach_step _ _ _ Sample.fresh); [by apply reach_fresh|].
  apply step_entry.
Defined.

(** The row written by Bob's check-in is well formed. *)
Lemma attendance_rows_well_formed_witness :
  Forall row_ok (attendance Demo.after_entry).
Proof.
  exact (attendance_rows_well_formed Sample.verify Sample.can_write
           Sample.send_email Demo.after_entry demo_after_entry_reachable).
Defined.

(** ... and carries the ID of a member. *)
Lemma attendance_ids_are_members_witness :
  "2" ∈ Member.ID <$> members Demo.after_entry.
Proof.
  apply (attendance_ids_are_members Sample.verify Sample.can_write
           Sample.send_email Demo.after_entry demo_after_entry_reachable
           (Attendance.Row "2" "Bob Ray" "2024-01-01" "09:30:00" ""
              "Present")).
  vm_compute. left.
Defined.

(** IDs 1 and 2 stay distinct while "NA" is registered twice; the two new
    rows both have the empty ID. *)
Lemma nonempty_member_ids_stay_unique_witness :
  let register := register_member Sample.can_write Sample.send_email in
  let s' := fst (register (fst (register Sample.fresh Demo.na_form))
                   Demo.na_form) in
  Member.ID <$> members s' = ["1"; "2"; ""; ""]
  /\ NoDup (filter (fun i => i <> "") (Member.ID <$> members s')).
Proof.
  split; [reflexivity|].
  apply (nonempty_member_ids_stay_unique Sample.verify Sample.can_write
           Sample.send_email Sample.fresh).
  - eapply rtc_l; [apply step_register|]. apply rtc_once, step_register.
  - refine (bool_decide_unpack _ _). vm_compute. exact I.
Defined.

(** Ann is deleted from a store whose archive holds Cy: her row is added
    after his. *)
Lemma deleted_members_append_only_witness :
  let s' := default Demo.archived
              (fst <$> delete_member Sample.send_email Demo.archived "1"
                         Sample.evening) in
  deleted s'
  = [Deleted.Row Demo.cy "2023-12-31 10:00:00";
     Deleted.Row Sample.ann "2024-01-01 18:05:00"]
  /\ (deleted Demo.archived `prefix_of` deleted s'
      \/ exists s0,
           rtc (step Sample.verify Sample.can_write Sample.send_email)
             Demo.archived s0
           /\ rtc (step Sample.verify Sample.can_write Sample.send_email)
                s0 s'
           /\ members s0 = [] /\ attendance s0 = [] /\ deleted s0 = []).
Proof.
  split; [reflexivity|].
  apply (proj2 (deleted_members_append_only Sample.verify Sample.can_write
                  Sample.send_email Demo.archived _)).
  eapply rtc_once, (step_delete _ _ _ _ "1" Sample.evening). reflexivity.
Defined.

(** The sample table reads back as it is, and still does after "NA" is
    registered. *)
Lemma members_table_stays_loaded_witness :
  Forall loaded
    (members (fst (register_member Sample.can_write Sample.send_email
                     Sample.fresh Demo.na_form))).
Proof.
  apply (proj1 (members_table_stays_loaded Sample.verify Sample.can_write
                  Sample.send_email Sample.fresh _
                  ltac:(repeat constructor))).
  apply rtc_once, step_register.
Defined.

(** Ann is deleted, and ID 1 is then given to a new member. *)
Lemma deleted_id_can_be_registered_again_witness :
  exists s1 msgs s2 row,
    delete_member Sample.send_email Sample.store0 "1" Sample.evening
    = Some (s1, msgs)
    /\ fst (register_member Sample.can_write Sample.send_email s1 Sample.form)
       = s2
    /\ members s2 = (members s1 ++ [row])%list
    /\ Member.ID row = "1"
    /\ exists d, d ∈ deleted s2 /\ Member.ID (Deleted.member d) = "1".
Proof.
  apply (deleted_id_can_be_registered_again Sample.can_write Sample.send_email
           Sample.store0 "1" Sample.evening Sample.form);
    [reflexivity
    | exists Sample.ann; split; [left | reflexivity]
    | reflexivity
    | by eexists
    | discriminate | discriminate | discriminate].
Defined.

(** Bob, the newest member, is deleted: the next generated ID is 2 again. *)
Lemma generated_id_repeats_deleted_witness :
  exists s' msgs,
    delete_member Sample.send_email Sample.fresh "2" Sample.evening
    = Some (s', msgs)
    /\ generate_member_id (members s') = "2"
    /\ exists d, d ∈ deleted s' /\ Member.ID (Deleted.member d) = "2".
Proof.
  apply (generated_id_repeats_deleted Sample.send_email Sample.fresh 2
           Sample.evening Sample.ann).
  - exists Sample.bob. split; [right; left | reflexivity].
  - left.
  - reflexivity.
  - intros m' j [->|Hin]%elem_of_cons.
    + intros [= <-]. left. lia.
    + apply list_elem_of_singleton in Hin as ->. by right.
Defined.

(** Registering Cy leaves Ann's photo as it was. *)
Lemma register_member_frame_witness :
  files (fst (register_member Sample.can_write Sample.send_email Sample.fresh
                Sample.blank_form))
  !! "member_images/1_Ann_Lee.jpg"
  = Some "picture of Ann".
Proof.
  rewrite (proj2 (proj2 (proj2 (register_member_frame Sample.can_write
                                  Sample.send_email Sample.fresh
                                  Sample.blank_form)))
             "member_images/1_Ann_Lee.jpg"); [reflexivity|].
  vm_compute. discriminate.
Defined.

(** A mail helper that succeeds gives the same store as one that fails. *)
Lemma notification_never_changes_store_witness :
  fst (register_member Sample.can_write Sample.send_email Sample.fresh
         Sample.blank_form)
  = fst (register_member Sample.can_write (fun _ _ => (true, "Email sent"))
           Sample.fresh Sample.blank_form).
Proof.
  exact (proj1 (notification_never_changes_store Sample.can_write
                  Sample.send_email (fun _ _ => (true, "Email sent"))
                  Sample.fresh)
           Sample.blank_form).
Defined.

(** Saved settings are the ones used for the next mail. *)
Lemma smtp_settings_round_trip_witness :
  Mail.send_email_using_config
    (fst (Mail.save_smtp_settings None "gym@example.org" "app password"))
    Demo.smtp "ann@example.org" "Gym Registration Successful"
  = (true, "Email sent").
Proof.
  exact (proj1 (smtp_settings_round_trip None "gym@example.org" "app password"
                  Demo.smtp "ann@example.org" "Gym Registration Successful")
           ltac:(discriminate) ltac:(discriminate)).
Defined.

(** Filtering the sample members by ID 2 shows Bob alone. *)
Lemma view_members_sound_witness :
  exists rows,
    view_members Demo.contains_all Demo.contains_all [Sample.ann; Sample.bob]
      "2" "" ""
    = Some (Table rows)
    /\ length rows = 1.
Proof.
  exists [Sample.bob]. split; [reflexivity|].
  destruct (proj1 (view_members_sound Demo.contains_all Demo.contains_all
                     [Sample.ann; Sample.bob] [Sample.bob] "2" "" "")
              eq_refl)
    as (_ & _ & Hid).
  apply Hid; [done|]. refine (bool_decide_unpack _ _). vm_compute. exact I.
Defined.

(** After Bob's check-in, his ID and the day select one row. *)
Lemma view_attendance_sound_witness :
  exists rows,
    view_attendance Demo.contains_all (attendance Demo.after_entry)
      (Some (2024, 1, 1)) "2" ""
    = Some (Table rows)
    /\ length rows = 1.
Proof.
  assert (H : exists rows,
            view_attendance Demo.contains_all (attendance Demo.after_entry)
              (Some (2024, 1, 1)) "2" ""
            = Some (Table rows)) by (eexists; reflexivity).
  destruct H as [rows H]. exists rows. split; [exact H|].
  destruct (view_attendance_sound Demo.contains_all Sample.verify
              Sample.can_write Sample.send_email Demo.after_entry rows
              (Some (2024, 1, 1)) "2" "" H)
    as (_ & _ & Hone).
  apply Hone; [apply demo_after_entry_reachable | by eexists | done].
Defined.

(** A check-in leaves the Members table alone. *)
Lemma attendance_branches_frame_witness :
  members Demo.after_entry = [Sample.ann; Sample.bob].
Proof.
  exact (proj1 (proj1 (attendance_branches_frame Sample.verify Sample.can_write
                         Sample.fresh (Some (ImageFile "probe"))
                         Sample.morning))).
Defined.

(** Cy registers with a photo PIL rejects: the row has no image path. *)
Lemma register_with_failed_image_witness :
  members (fst (register_member Sample.can_write Sample.send_email Sample.fresh
                  Demo.bad_photo_form))
  = [Sample.ann; Sample.bob;
     Member.Row "3" "Cy Dee" "Other" "cy@example.org" "5550003" "Quarterly"
       "1400" "2024-01-03" ""].
Proof.
  refine (proj1 (register_with_failed_image Sample.can_write Sample.send_email
                   Sample.fresh Demo.bad_photo_form NotAnImage "3"
                   eq_refl _ _ _ eq_refl _ (or_introl eq_refl)));
    try discriminate.
  vm_compute. intros Hin.
  repeat (inversion Hin as [|? ? ? Hin']; clear Hin; rename Hin' into Hin).
Defined.

(** Ann's update with a rejected photo empties her stored picture. *)
Lemma update_with_rejected_photo_witness :
  exists s' msgs,
    update_member Sample.can_write Sample.send_email Sample.fresh "1"
      Demo.update_form
    = Some (s', msgs)
    /\ files s' !! "member_images/1_Ann_Lee.jpg" = Some "".
Proof.
  destruct (update_with_rejected_photo Sample.can_write Sample.send_email
              Sample.fresh "1" Demo.update_form Sample.ann)
    as (s' & msgs & Hup & _ & _ & _ & Hlost); try reflexivity.
  exists s', msgs. split; [exact Hup|]. by apply Hlost.
Defined.

(** Ann's update keeps the IDs 1 and 2. *)
Lemma update_member_frame_witness :
  exists s' msgs,
    update_member Sample.can_write Sample.send_email Sample.fresh "1"
      Demo.update_form
    = Some (s', msgs)
    /\ Member.ID <$> members s' = ["1"; "2"].
Proof.
  assert (H : exists s' msgs,
            update_member Sample.can_write Sample.send_email Sample.fresh "1"
              Demo.update_form
            = Some (s', msgs)) by (eexists _, _; reflexivity).
  destruct H as (s' & msgs & H). exists s', msgs. split; [exact H|].
  by rewrite (proj1 (update_member_frame Sample.can_write Sample.send_email
                       Sample.fresh s' "1" Demo.update_form msgs H)).
Defined.

(** Bob checks in in the morning and out in the evening. *)
Lemma check_in_then_out_witness :
  attendance (fst (attendance_exit Sample.verify Sample.can_write
                     Demo.after_entry (Some (ImageFile "probe"))
                     Sample.evening))
  = [Attendance.Row "2" "Bob Ray" "2024-01-01" "09:30:00" "18:05:00"
       "Exited"].
Proof.
  refine (proj1 (proj2 (check_in_then_out Sample.verify Sample.can_write
                          Sample.fresh (ImageFile "probe") (ImageFile "probe")
                          Sample.morning Sample.evening _ _ Sample.bob
                          (Some (PyFloat.Fin (3 # 10)))
                          (Some (PyFloat.Fin (3 # 10)))
                          eq_refl _ _ eq_refl _ eq_refl)));
    reflexivity.
Defined.

(** With ID 7 the photo of " Cy/../Dee " stays in the image directory. *)
Lemma name_cannot_leave_img_dir_witness :
  image_path "7" " Cy/../Dee " = "member_images/7_CyDee.jpg".
Proof.
  assert (Hid : ~ In "/"%char (list_ascii_of_string "7"))
    by (intros [H|[]]; discriminate).
  rewrite (proj1 (name_cannot_leave_img_dir "7" " Cy/../Dee " Hid)).
  reflexivity.
Defined.
